(** * tempjwk: a temporary JWK provisioner on a step-ca authority

    Shallow embedding of [tempjwk.py] and the properties of its
    provisioner lifecycle: query, delete-if-present, decrypt and add, wait
    for a key press or a timeout, delete.

    The script is a sequence of subprocess calls threaded through Python
    exceptions.  It is embedded in a state-and-exception monad over a
    [World] (file system, state of the external tools, wall clock, and the
    history of what happened on the terminal).  The external tools
    ([step-cli], [gpg]), the clock and the keyboard are parameters: an
    [Env] record. *)

From Stdlib Require Import Ascii String.
From stdpp Require Import gmap strings list pretty stringmap.
From Equations Require Import Equations.

Open Scope string_scope.
Open Scope Z_scope.
Open Scope list_scope.

(** ** Python values the script relies on *)

Module Py.

(** [needle in hay] on [str]. *)
Fixpoint is_substring (needle hay : string) : bool :=
  String.prefix needle hay ||
  match hay with
  | EmptyString => false
  | String _ rest => is_substring needle rest
  end.

Definition ascii_dquote : ascii := ascii_of_nat 34.

Definition hex_digit (n : N) : ascii :=
  match n with
  | 0%N => "0" | 1%N => "1" | 2%N => "2" | 3%N => "3" | 4%N => "4"
  | 5%N => "5" | 6%N => "6" | 7%N => "7" | 8%N => "8" | 9%N => "9"
  | 10%N => "a" | 11%N => "b" | 12%N => "c" | 13%N => "d" | 14%N => "e"
  | _ => "f"
  end%char.

(** One character of [repr(s)], [q] being the quote that delimits it. *)
Definition repr_char (q c : ascii) : string :=
  let n := N_of_ascii c in
  if Ascii.eqb c "\" then "\\"
  else if Ascii.eqb c q then String "\" (String c "")
  else if (n =? 10)%N then "\n"
  else if (n =? 13)%N then "\r"
  else if (n =? 9)%N then "\t"
  else if ((n <? 32) || (n =? 127))%N
       then String "\" (String "x" (String (hex_digit (n / 16)) (String (hex_digit (n mod 16)) "")))
  else String c "".

Fixpoint repr_body (q : ascii) (s : string) : string :=
  match s with
  | EmptyString => ""
  | String c rest => repr_char q c +:+ repr_body q rest
  end.

Fixpoint mentions (c : ascii) (s : string) : bool :=
  match s with
  | EmptyString => false
  | String d rest => Ascii.eqb c d || mentions c rest
  end.

(** [repr(s)] for a [str] of ASCII characters: single quotes, unless the
    text has a single quote and no double quote. *)
Definition repr_str (s : string) : string :=
  let q := if mentions "'" s && negb (mentions ascii_dquote s)
           then ascii_dquote else "'"%char in
  String q (repr_body q s +:+ String q "").

Fixpoint join (sep : string) (l : list string) : string :=
  match l with
  | [] => ""
  | [x] => x
  | x :: rest => x +:+ sep +:+ join sep rest
  end.

(** [str(l)] for a list of [str]. *)
Definition str_list (l : list string) : string :=
  "[" +:+ join ", " (repr_str <$> l) +:+ "]".

(** Exceptions the script raises or meets.  A [CalledProcessError] carries
    the return code, the command and whatever output was captured. *)
Inductive exn :=
| CalledProcessError (returncode : Z) (cmd : list string)
                     (output stderr : option string)
| ValueError (msg : string)
| FileNotFoundError (filename : string)
| PermissionError (filename : string)
| SystemExit (code : Z).

(** Names of [signal.Signals] on Linux, for a process killed by a signal. *)
Definition signal_name (n : Z) : option string :=
  match n with
  | 1 => Some "SIGHUP" | 2 => Some "SIGINT" | 3 => Some "SIGQUIT"
  | 4 => Some "SIGILL" | 5 => Some "SIGTRAP" | 6 => Some "SIGABRT"
  | 7 => Some "SIGBUS" | 8 => Some "SIGFPE" | 9 => Some "SIGKILL"
  | 10 => Some "SIGUSR1" | 11 => Some "SIGSEGV" | 12 => Some "SIGUSR2"
  | 13 => Some "SIGPIPE" | 14 => Some "SIGALRM" | 15 => Some "SIGTERM"
  | 16 => Some "SIGSTKFLT" | 17 => Some "SIGCHLD" | 18 => Some "SIGCONT"
  | 19 => Some "SIGSTOP" | 20 => Some "SIGTSTP" | 21 => Some "SIGTTIN"
  | 22 => Some "SIGTTOU" | 23 => Some "SIGURG" | 24 => Some "SIGXCPU"
  | 25 => Some "SIGXFSZ" | 26 => Some "SIGVTALRM" | 27 => Some "SIGPROF"
  | 28 => Some "SIGWINCH" | 29 => Some "SIGIO" | 30 => Some "SIGPWR"
  | 31 => Some "SIGSYS" | 34 => Some "SIGRTMIN" | 64 => Some "SIGRTMAX"
  | _ => None
  end.

(** [str(e)], the text an f-string puts for [{e}]. *)
Definition str_exn (e : exn) : string :=
  match e with
  | CalledProcessError rc cmd _ _ =>
      if rc <? 0 then
        match signal_name (- rc) with
        | Some name =>
            "Command '" +:+ str_list cmd +:+ "' died with <Signals."
              +:+ name +:+ ": " +:+ pretty (- rc) +:+ ">."
        | None =>
            "Command '" +:+ str_list cmd +:+ "' died with unknown signal "
              +:+ pretty (- rc) +:+ "."
        end
      else
        "Command '" +:+ str_list cmd +:+ "' returned non-zero exit status "
          +:+ pretty rc +:+ "."
  | ValueError msg => msg
  | FileNotFoundError name =>
      "[Errno 2] No such file or directory: " +:+ repr_str name
  | PermissionError name =>
      "[Errno 13] Permission denied: " +:+ repr_str name
  | SystemExit code => pretty code
  end.


(** *** pathlib, POSIX flavour

    A path is its anchor and its components; parsing drops empty and [.]
    components, as [PurePosixPath] does. *)
Record Path := mkPath { absolute : bool; parts : list string }.

Fixpoint split_slash (cur : string) (s : string) : list string :=
  match s with
  | EmptyString => [cur]
  | String c rest =>
      if Ascii.eqb c "/" then cur :: split_slash "" rest
      else split_slash (cur +:+ String c "") rest
  end.

Definition keep_part (p : string) : bool :=
  negb (String.eqb p "") && negb (String.eqb p ".").

Definition path_of (s : string) : Path :=
  {| absolute := String.prefix "/" s;
     parts := List.filter keep_part (split_slash "" s) |}.

(** [p / s]: an absolute right operand replaces the left one. *)
Definition joinpath (p : Path) (s : string) : Path :=
  let q := path_of s in
  if absolute q then q
  else {| absolute := absolute p; parts := parts p ++ parts q |}.

(** [p.parent] *)
Definition parent (p : Path) : Path :=
  {| absolute := absolute p; parts := removelast (parts p) |}.

(** [str(p)] *)
Definition str_path (p : Path) : string :=
  if absolute p then "/" +:+ join "/" (parts p)
  else match parts p with
       | [] => "."
       | _ => join "/" (parts p)
       end.

End Py.

Import Py.

(** ** The world the script runs in *)

(** What a finished child process hands back. *)
Record proc := mkProc { returncode : Z; stdout : string; stderr : string }.

(** Where a child's output stream goes: the terminal the script itself
    writes to (the default), a pipe read by the script
    ([capture_output=True]) or an open file ([stdout=temp_file]). *)
Inductive sink := Inherit | Pipe | ToFile (path : string).

(** Why the operating system could not start a program: no such file on
    the search path, or a file that may not be executed. *)
Inductive oserror := ENOENT | EACCES.

(** The exception [subprocess.run] raises when [argv] cannot be started;
    its file name is the program, [argv[0]]. *)
Definition os_error (err : oserror) (argv : list string) : exn :=
  match err with
  | ENOENT => FileNotFoundError (hd "" argv)
  | EACCES => PermissionError (hd "" argv)
  end.

(** What becomes of a command: it ran and returned, leaving the
    collaborators in a new state, or it could not be started. *)
Inductive outcome (Ext : Type) :=
| Exited (p : proc) (after : Ext)
| NotStarted (err : oserror).
Arguments Exited {Ext} p after.
Arguments NotStarted {Ext} err.

(** The two ways out of the key-press loop. *)
Inductive wait_outcome := cancelled | timedOut.

(** The namespace [parser.parse_args()] returns, one field per [dest];
    [type=int] lets any integer through as the timeout. *)
Module Args.
Record t := mk {
  admin_provisioner : string;
  admin_subject : string;
  provisioner_name : string;
  public_key_path : string;
  private_key_path : string;
  timeout : Z }.
End Args.

(** The [default=] of every option. *)
Definition default_args : Args.t :=
  {| Args.admin_provisioner := "KumiDC";
     Args.admin_subject := "admin";
     Args.provisioner_name := "tempjwk";
     Args.public_key_path := "key.pub";
     Args.private_key_path := "key.priv.gpg";
     Args.timeout := 300 |}.

(** The same arguments with another [--timeout]. *)
Definition with_timeout (seconds : Z) (args : Args.t) : Args.t :=
  {| Args.admin_provisioner := Args.admin_provisioner args;
     Args.admin_subject := Args.admin_subject args;
     Args.provisioner_name := Args.provisioner_name args;
     Args.public_key_path := Args.public_key_path args;
     Args.private_key_path := Args.private_key_path args;
     Args.timeout := seconds |}.

(** Wall-clock time is counted in microseconds. *)
Definition usec (seconds : Z) : Z := seconds * 1000000.

(** The [0.5] handed to [select]. *)
Definition poll_interval : Z := 500000.

(** How a statement ends: with a value, or with an exception on its way
    up. *)
Inductive result (A : Type) :=
| Return (a : A)
| Raise (e : exn).
Arguments Return {A} a.
Arguments Raise {A} e.

Section Controller.

(** State of the external collaborators: the authority's provisioner
    table, the gpg key ring. *)
Context {Ext : Type}.

(** Everything the script does not control.
    - [exec argv files x]: what becomes of running [argv]: what it
      returns and how it changes the collaborators' state, or why it
      could not be started.  A command that starts is taken to return.
      Tools read the file system; they write to it only through a
      redirected stdout.
    - [clock_lag k]: by how much the clock has moved on when it is read
      for the [k]-th time, beyond the time spent blocked in [select].
      Zero is possible: two readings closer than the clock's resolution.
    - [stdin_at]: the instant at which a key press becomes readable on
      standard input, if ever.
    - [script_file]: [__file__]. *)
Record Env := mkEnv {
  exec : list string -> gmap string string -> Ext -> outcome Ext;
  clock_lag : nat -> N;
  stdin_at : option Z;
  script_file : string }.

(** The same collaborators under another clock and another keyboard. *)
Definition with_keyboard (lag : nat -> N) (key : option Z) (e : Env) : Env :=
  {| exec := exec e; clock_lag := lag; stdin_at := key;
     script_file := script_file e |}.

(** What shows up, in order, while the script runs.  [Spawn] keeps the
    collaborators' state the command started from. *)
Inductive event :=
| Spawn (argv : list string) (out err : sink) (before : Ext) (p : proc)
| Print (line : string)
| Select (at_time : Z) (ready : bool)
| Traceback (e : exn).

Record World := mkWorld {
  files : gmap string string;
  ext : Ext;
  now : Z;
  reads : nat;
  trace : list event }.

Definition set_files (f : gmap string string) (w : World) : World :=
  {| files := f; ext := ext w; now := now w; reads := reads w; trace := trace w |}.

Definition emit (e : event) (w : World) : World :=
  {| files := files w; ext := ext w; now := now w; reads := reads w;
     trace := trace w ++ [e] |}.

Definition initial (f : gmap string string) (x : Ext) (t0 : Z) : World :=
  {| files := f; ext := x; now := t0; reads := 0; trace := [] |}.

(** *** Statements: state and exceptions *)

Definition M (A : Type) : Type := World -> result A * World.

Definition ret {A} (a : A) : M A := fun w => (Return a, w).

Definition raise {A} (e : exn) : M A := fun w => (Raise e, w).

Definition bind {A B} (m : M A) (k : A -> M B) : M B :=
  fun w =>
    match m w with
    | (Return a, w') => k a w'
    | (Raise e, w') => (Raise e, w')
    end.

(** [try: body  except subprocess.CalledProcessError as e: handler] *)
Definition try_except {A} (body : M A) (handler : exn -> M A) : M A :=
  fun w =>
    match body w with
    | (Raise (CalledProcessError rc cmd o e), w') =>
        handler (CalledProcessError rc cmd o e) w'
    | r => r
    end.

Variable env : Env.

Definition print (line : string) : M unit :=
  fun w => (Return tt, emit (Print line) w).

(** [exit(code)] *)
Definition exit {A} (code : Z) : M A := raise (SystemExit code).

(** [path.exists()] *)
Definition path_exists (p : Path) : M bool :=
  fun w => (Return (bool_decide (is_Some (files w !! str_path p))), w).

(** A primitive that cannot fail, as a statement. *)
Definition lift {A} (f : World -> A * World) : M A :=
  fun w => let '(a, w') := f w in (Return a, w').

(** [time.time()] *)
Definition time_time (w : World) : Z * World :=
  let t := now w + Z.of_N (clock_lag env (reads w)) in
  (t, {| files := files w; ext := ext w; now := t; reads := S (reads w);
         trace := trace w |}).

(** The script resumes at [t] from a [select] that found [ready]. *)
Definition wake (ready : bool) (t : Z) (w : World) : bool * World :=
  (ready, {| files := files w; ext := ext w; now := t; reads := reads w;
             trace := trace w ++ [Select t ready] |}).

(** [select.select([sys.stdin,], [], [], interval)[0]] as a truth value:
    returns at once when a key press is already buffered, as soon as one
    arrives within the interval, and with nothing after the whole interval
    otherwise. *)
Definition select_stdin (interval : Z) (w : World) : bool * World :=
  match stdin_at env with
  | Some a =>
      if a <=? now w then wake true (now w) w
      else if a <? now w + interval then wake true a w
      else wake false (now w + interval) w
  | None => wake false (now w + interval) w
  end.

(** [subprocess.run(argv, ..., check=check)] with the child's stdout and
    stderr sent to [out] and [err].  A program that cannot be started
    raises its [OSError] out of [subprocess.run], nothing having run or
    been written. *)
Definition subprocess_run (argv : list string) (out err : sink) (check : bool)
  : M proc :=
  fun w =>
    match exec env argv (files w) (ext w) with
    | NotStarted why => (Raise (os_error why argv), w)
    | Exited p x' =>
        let f := match out with
                 | ToFile path => <[path := stdout p]> (files w)
                 | _ => files w
                 end in
        let w' := {| files := f; ext := x'; now := now w; reads := reads w;
                     trace := trace w ++ [Spawn argv out err (ext w) p] |} in
        if check && negb (returncode p =? 0)
        then (Raise (CalledProcessError (returncode p) argv
                       (match out with Pipe => Some (stdout p) | _ => None end)
                       (match err with Pipe => Some (stderr p) | _ => None end)),
              w')
        else (Return p, w')
    end.

(** [with tempfile.NamedTemporaryFile(delete=delete) as temp_file: body]:
    a new, empty file under a name nothing else has; with [delete] it is
    removed when the block is left, whichever way. *)
Definition named_temporary_file {A} (delete_on_close : bool)
  (body : string -> M A) : M A :=
  fun w =>
    let name := fresh_string "/tmp/tmp" (files w) in
    let '(r, w') := body name (set_files (<[name := ""]> (files w)) w) in
    (r, if delete_on_close then set_files (delete name (files w')) w' else w').

(** [pathlib.Path(name).unlink()] *)
Definition unlink (name : string) : M unit :=
  fun w =>
    match files w !! name with
    | Some _ => (Return tt, set_files (delete name (files w)) w)
    | None => (Raise (FileNotFoundError name), w)
    end.

Notation "x <- c ;; k" := (bind c (fun x => k))
  (at level 100, c at next level, right associativity).
Notation "c ;;; k" := (bind c (fun _ => k))
  (at level 100, right associativity).

(** *** The script, function by function *)

Definition check_provisioner (provisioner_name : string) : M bool :=
  let provisioner_exists_command := ["step-cli"; "ca"; "provisioner"; "list"] in
  provisioner_exists_process <-
    subprocess_run provisioner_exists_command Pipe Pipe true ;;
  if is_substring provisioner_name (stdout provisioner_exists_process)
  then ret true
  else ret false.

Definition delete_command (provisioner_name admin_provisioner admin_subject : string)
  : list string :=
  ["step-cli"; "ca"; "provisioner"; "remove";
   provisioner_name;
   "--admin-provisioner"; admin_provisioner;
   "--admin-subject"; admin_subject].

Definition delete_provisioner (provisioner_name admin_provisioner admin_subject : string)
  : M unit :=
  try_except
    (delete_process <-
       subprocess_run
         (delete_command provisioner_name admin_provisioner admin_subject)
         Inherit Inherit true ;;
     ret tt)
    (fun e => raise (ValueError ("Error: Failed to delete provisioner: " +:+ str_exn e))).

Definition gpg_command (input_file : string) : list string :=
  ["gpg"; "--decrypt"; input_file].

Definition step_command
  (provisioner_name admin_provisioner admin_subject temp_name public_key_path : string)
  : list string :=
  ["step-cli"; "ca"; "provisioner"; "add";
   "--type"; "jwk";
   "--public-key"; public_key_path;
   "--private-key"; temp_name;
   provisioner_name;
   "--admin-provisioner"; admin_provisioner;
   "--admin-subject"; admin_subject].

(** The arguments are [str]s at the only call site, so the [str(...)] the
    source wraps the two paths in gives them back unchanged. *)
Definition add_provisioner
  (provisioner_name admin_provisioner admin_subject
   private_key_path public_key_path : string) : M unit :=
  named_temporary_file true (fun temp_file =>
    gpg_process <-
      subprocess_run (gpg_command private_key_path) (ToFile temp_file) Inherit false ;;
    if negb (returncode gpg_process =? 0)
    then raise (ValueError "Failed to decrypt private key")
    else
      try_except
        (step_process <-
           subprocess_run
             (step_command provisioner_name admin_provisioner admin_subject
                temp_file public_key_path)
             Inherit Inherit true ;;
         ret tt)
        (fun e => raise (ValueError ("Error: Failed to add provisioner: " +:+ str_exn e)))).

(** Defined by the source and called from nowhere in it; [output_file] is
    a parameter the body never looks at. *)
Definition decrypt_file (input_file : Path) (output_file : option Path) : M Path :=
  named_temporary_file false (fun temp_file =>
    gpg_process <-
      try_except
        (subprocess_run (gpg_command (str_path input_file)) (ToFile temp_file) Inherit true)
        (fun e =>
           unlink temp_file ;;;
           raise (ValueError ("Error: Failed decrypting file: " +:+ str_exn e))) ;;
    ret (path_of temp_file)).

(** A value together with the fact that it is the value of [a]. *)
Definition inspect {A : Type} (a : A) : { b : A | a = b } := exist _ a eq_refl.

(** Upper bound on the polls still to come, for the termination of the
    loop: each fruitless poll moves the clock by a whole interval. *)
Definition polls_left (start_time timeout : Z) (w : World) : nat :=
  Z.to_nat ((usec timeout - (now w - start_time)) / poll_interval + 2).

(** [while True:] of [main], with the way out it took. *)
Equations? wait_loop (start_time timeout : Z) (w : World) : wait_outcome * World
  by wf (polls_left start_time timeout w) lt :=
wait_loop start_time timeout w with inspect (time_time w) := {
  | exist _ (t, w1) Hclock with inspect (usec timeout <? t - start_time) := {
    | exist _ true _ => (timedOut, w1)
    | exist _ false Hin with inspect (select_stdin poll_interval w1) := {
      | exist _ (true, w2) _ => (cancelled, w2)
      | exist _ (false, w2) Hsel => wait_loop start_time timeout w2 } } }.
Proof.
  clear wait_loop.
  set (lag := Z.of_N (clock_lag env (reads w))) in *.
  assert (0 <= lag) by (unfold lag; lia).
  assert (now w2 = now w + lag + poll_interval) as Hnow.
  { unfold select_stdin, wake in Hsel. simpl in Hsel.
    destruct (stdin_at env) as [a|];
      [destruct (a <=? now w + lag); [|destruct (a <? now w + lag + poll_interval)]|];
      inversion Hsel; reflexivity. }
  unfold polls_left. rewrite Hnow. unfold poll_interval.
  apply Z.ltb_ge in Hin.
  set (r := usec timeout - (now w - start_time)).
  replace (usec timeout - (now w + lag + 500000 - start_time))
    with (r - lag + (-1) * 500000) by (unfold r; lia).
  rewrite Z.div_add by lia.
  assert (0 <= r - lag) by (unfold r; lia).
  assert ((r - lag) / 500000 <= r / 500000) by (apply Z.div_le_mono; lia).
  assert (0 <= (r - lag) / 500000) by (apply Z.div_pos; lia).
  lia.
Qed.

(** [main()], from the key paths to the last [print]. *)
Definition main (args : Args.t) : M unit :=
  let script_dir := parent (path_of (script_file env)) in
  let public_key_path := joinpath script_dir (Args.public_key_path args) in
  let private_key_path := joinpath script_dir (Args.private_key_path args) in
  found <- path_exists public_key_path ;;
  (if negb found
   then print "Error: public key file does not exist" ;;; exit 1
   else ret tt) ;;;
  provisioner_exists <-
    try_except
      (check_provisioner (Args.provisioner_name args))
      (fun e =>
         print ("Error: Failed to check if provisioner exists: " +:+ str_exn e) ;;;
         exit 1) ;;
  (if provisioner_exists : bool
   then
     print ("Provisioner " +:+ Args.provisioner_name args
              +:+ " already exists. Deleting existing provisioner...") ;;;
     try_except
       (delete_provisioner (Args.provisioner_name args)
          (Args.admin_provisioner args) (Args.admin_subject args))
       (fun e =>
          print ("Error: Failed to delete existing provisioner "
                   +:+ Args.provisioner_name args +:+ ": " +:+ str_exn e) ;;;
          exit 1) ;;;
     print ("Existing provisioner " +:+ Args.provisioner_name args +:+ " deleted.")
   else ret tt) ;;;
  try_except
    (add_provisioner (Args.provisioner_name args)
       (Args.admin_provisioner args) (Args.admin_subject args)
       (Args.private_key_path args) (Args.public_key_path args))
    (fun e =>
       print ("Error: Failed to add provisioner "
                +:+ Args.provisioner_name args +:+ ": " +:+ str_exn e) ;;;
       exit 1) ;;;
  print ("Provisioner " +:+ Args.provisioner_name args +:+ " added.") ;;;
  print ("Press any key to delete it (up to "
           +:+ pretty (Args.timeout args) +:+ " seconds)") ;;;
  start_time <- lift time_time ;;
  how <- lift (wait_loop start_time (Args.timeout args)) ;;
  try_except
    (delete_provisioner (Args.provisioner_name args)
       (Args.admin_provisioner args) (Args.admin_subject args))
    (fun e =>
       print ("Error: Failed to delete provisioner "
                +:+ Args.provisioner_name args +:+ ": " +:+ str_exn e) ;;;
       exit 1) ;;;
  print ("Provisioner " +:+ Args.provisioner_name args +:+ " deleted.").

(** [if __name__ == '__main__': main()] under the interpreter: the exit
    status of the process and the world it leaves.  [SystemExit] ends the
    process with its code; any other exception that leaves [main] is
    reported by a traceback and ends it with status 1. *)
Definition run_script (args : Args.t) (w : World) : Z * World :=
  match main args w with
  | (Return _, w') => (0, w')
  | (Raise (SystemExit code), w') => (code, w')
  | (Raise e, w') => (1, emit (Traceback e) w')
  end.

End Controller.

(** ** What the script expects of its collaborators

    The contract of the authority's tool and of gpg, over an observation
    [namespace] of the provisioner names the authority currently holds:
    listing changes nothing and, when it succeeds, its text contains
    every name; a removal that reports success has removed the name;
    decrypting does not touch the authority.  Each clause is about a
    command that ran; whether the tools can be started is no part of
    it. *)
Record honours_contract {Ext : Type} (namespace : Ext -> list string)
  (env : @Env Ext) : Prop := {
  list_keeps : forall f x p x',
    exec env ["step-cli"; "ca"; "provisioner"; "list"] f x = Exited p x' ->
    namespace x' = namespace x;
  list_shows : forall f x n p x',
    exec env ["step-cli"; "ca"; "provisioner"; "list"] f x = Exited p x' ->
    returncode p = 0 ->
    n ∈ namespace x ->
    is_substring n (stdout p) = true;
  remove_removes : forall f x n ap sub p x',
    exec env (delete_command n ap sub) f x = Exited p x' ->
    returncode p = 0 ->
    n ∉ namespace x';
  gpg_keeps : forall f x path p x',
    exec env (gpg_command path) f x = Exited p x' ->
    namespace x' = namespace x }.

(** ** A reference authority and key ring

    A small implementation of the collaborators, for running the script
    on closed inputs: the authority holds a list of provisioner names and
    is reachable or not; [quota] is the number of administrative changes
    it still accepts.  An encrypted file is its plaintext behind the
    marker [GPG:]. *)
Module Ref.

Record CA := mkCA { provisioners : list string; online : bool; quota : nat }.

Definition newline : string := String (ascii_of_nat 10) "".

Definition listing (x : CA) : string :=
  join "" ((fun n => n +:+ newline) <$> provisioners x).

Definition refused : proc := mkProc 1 "" "error: connection refused".

Definition spend (x : CA) (names : list string) : CA :=
  {| provisioners := names; online := online x; quota := pred (quota x) |}.

Fixpoint strip (marker text : string) : option string :=
  match marker, text with
  | EmptyString, _ => Some text
  | String a m, String b t => if Ascii.eqb a b then strip m t else None
  | String _ _, EmptyString => None
  end.

Definition run (argv : list string) (files : gmap string string) (x : CA)
  : outcome CA :=
  match argv with
  | ["gpg"; "--decrypt"; path] =>
      match files !! path with
      | Some text =>
          match strip "GPG:" text with
          | Some plain => Exited (mkProc 0 plain "") x
          | None => Exited (mkProc 2 "" "gpg: no valid OpenPGP data found.") x
          end
      | None => Exited (mkProc 2 "" "gpg: can't open the file") x
      end
  | ["step-cli"; "ca"; "provisioner"; "list"] =>
      if online x then Exited (mkProc 0 (listing x) "") x else Exited refused x
  | ["step-cli"; "ca"; "provisioner"; "remove"; name; _; _; _; _] =>
      if negb (online x) then Exited refused x
      else if bool_decide (quota x = 0%nat)
      then Exited (mkProc 1 "" "error: admin credential rejected") x
      else if bool_decide (name ∈ provisioners x)
      then Exited (mkProc 0 "" "")
             (spend x (List.filter (fun n => negb (String.eqb n name)) (provisioners x)))
      else Exited (mkProc 1 "" "error: provisioner not found") x
  | ["step-cli"; "ca"; "provisioner"; "add"; _; "jwk"; _; pub; _; priv; name; _; _; _; _] =>
      if negb (online x) then Exited refused x
      else if bool_decide (quota x = 0%nat)
      then Exited (mkProc 1 "" "error: admin credential rejected") x
      else if bool_decide (name ∈ provisioners x)
      then Exited (mkProc 1 "" "error: provisioner already exists") x
      else
        match files !! pub, files !! priv with
        | Some _, Some _ => Exited (mkProc 0 "" "") (spend x (provisioners x ++ [name]))
        | _, _ => Exited (mkProc 1 "" "error: cannot read key file") x
        end
  | "gpg" :: _ | "step-cli" :: _ => Exited (mkProc 2 "" "usage error") x
  | _ => NotStarted ENOENT
  end.

(** The tool as installed at [/opt/tempjwk], a clock that only moves
    while [select] blocks, and a key press at [key] (if any). *)
Definition env (key : option Z) : @Env CA :=
  {| exec := run; clock_lag := fun _ => 0%N; stdin_at := key;
     script_file := "/opt/tempjwk/tempjwk.py" |}.

(** The same machine with [prog] missing from the search path. *)
Definition without (prog : string) (e : @Env CA) : @Env CA :=
  {| exec := fun argv files x =>
       if String.eqb (hd "" argv) prog then NotStarted ENOENT
       else exec e argv files x;
     clock_lag := clock_lag e; stdin_at := stdin_at e;
     script_file := script_file e |}.

(** Both key files next to the script, as the defaults expect. *)
Definition keys_by_script : gmap string string :=
  <["/opt/tempjwk/key.pub" := "PUBLIC"]>
    (<["/opt/tempjwk/key.priv.gpg" := "GPG:PRIVATE"]> ∅).

(** Both key files next to the script and in the working directory. *)
Definition keys_everywhere : gmap string string :=
  <["key.pub" := "PUBLIC"]> (<["key.priv.gpg" := "GPG:PRIVATE"]> keys_by_script).

Definition ca (names : list string) : CA :=
  {| provisioners := names; online := true; quota := 10 |}.


(** An authority that holds the name and rejects the admin credential. *)
Definition locked : CA :=
  {| provisioners := ["tempjwk"]; online := true; quota := 0 |}.

End Ref.

(** ** Reading a history *)

Section Observations.

Context {Ext : Type}.

(** The commands that were run: arguments, the collaborators' state each
    started from, and what it returned. *)
Definition command_of (e : @event Ext) : option (list string * Ext * proc) :=
  match e with
  | Spawn argv _ _ before p => Some (argv, before, p)
  | _ => None
  end.

Definition commands (tr : list (@event Ext)) : list (list string * Ext * proc) :=
  omap command_of tr.

Definition is_select (e : @event Ext) : bool :=
  match e with
  | Select _ _ => true
  | _ => false
  end.


(** How many times standard input was polled. *)
Definition polls (tr : list (@event Ext)) : nat :=
  length (List.filter is_select tr).




End Observations.

(** ** The paths through [main]

    The state machine of the lifecycle, START, CHECK_EXISTING,
    DELETE_EXISTING, ADD, WAIT, DELETE_FINAL, DONE or FAILED, as the runs it
    allows from a world with files [f], collaborators in state [x0], the
    clock at [t0] and an empty history.  [run_script_path] below shows
    that every run of the script is one of them. *)

Definition list_command : list string := ["step-cli"; "ca"; "provisioner"; "list"].

Section Paths.

Context {Ext : Type} (env : @Env Ext) (args : Args.t).

(** [str(public_key_path)], the path START looks for. *)
Definition resolved_public_key : string :=
  str_path (joinpath (parent (path_of (script_file env))) (Args.public_key_path args)).

(** [str(private_key_path)], computed by [main] next to it. *)
Definition resolved_private_key : string :=
  str_path (joinpath (parent (path_of (script_file env))) (Args.private_key_path args)).

Definition remove_of : list string :=
  delete_command (Args.provisioner_name args)
    (Args.admin_provisioner args) (Args.admin_subject args).

Definition gpg_of : list string := gpg_command (Args.private_key_path args).

Definition add_of (temp_file : string) : list string :=
  step_command (Args.provisioner_name args)
    (Args.admin_provisioner args) (Args.admin_subject args)
    temp_file (Args.public_key_path args).

Definition delete_failure (p : proc) : exn :=
  ValueError ("Error: Failed to delete provisioner: "
              +:+ str_exn (CalledProcessError (returncode p) remove_of None None)).

Definition add_failure (temp_file : string) (p : proc) : exn :=
  ValueError ("Error: Failed to add provisioner: "
              +:+ str_exn (CalledProcessError (returncode p) (add_of temp_file) None None)).

Definition query_failure (p : proc) : string :=
  "Error: Failed to check if provisioner exists: "
  +:+ str_exn (CalledProcessError (returncode p) list_command
                 (Some (stdout p)) (Some (stderr p))).

Definition announce_added : list (@event Ext) :=
  [Print ("Provisioner " +:+ Args.provisioner_name args +:+ " added.");
   Print ("Press any key to delete it (up to "
          +:+ pretty (Args.timeout args) +:+ " seconds)")].

Variables (f : gmap string string) (x0 : Ext) (t0 : Z).

(** The name the temporary file gets, and the files while it holds [text]. *)
Definition temp_name : string := fresh_string "/tmp/tmp" f.

Definition with_temp (text : string) : gmap string string :=
  <[temp_name := text]> (<[temp_name := ""]> f).

(** CHECK_EXISTING and DELETE_EXISTING went through: the history so far
    and the state of the collaborators. *)
Inductive prepared : list (@event Ext) -> Ext -> Prop :=
| prepared_absent pl x1 :
    exec env list_command f x0 = Exited pl x1 ->
    returncode pl = 0 ->
    is_substring (Args.provisioner_name args) (stdout pl) = false ->
    prepared [Spawn list_command Pipe Pipe x0 pl] x1
| prepared_deleted pl x1 pd x2 :
    exec env list_command f x0 = Exited pl x1 ->
    returncode pl = 0 ->
    is_substring (Args.provisioner_name args) (stdout pl) = true ->
    exec env remove_of f x1 = Exited pd x2 ->
    returncode pd = 0 ->
    prepared
      [Spawn list_command Pipe Pipe x0 pl;
       Print ("Provisioner " +:+ Args.provisioner_name args
              +:+ " already exists. Deleting existing provisioner...");
       Spawn remove_of Inherit Inherit x1 pd;
       Print ("Existing provisioner " +:+ Args.provisioner_name args +:+ " deleted.")]
      x2.

(** ADD went through as well, and the loop has been left. *)
Inductive waited : list (@event Ext) -> Ext -> Z -> nat -> Prop :=
| waited_intro pre x2 pg x3 pa x4 how t k sel :
    prepared pre x2 ->
    exec env gpg_of (<[temp_name := ""]> f) x2 = Exited pg x3 ->
    returncode pg = 0 ->
    exec env (add_of temp_name) (with_temp (stdout pg)) x3 = Exited pa x4 ->
    returncode pa = 0 ->
    wait_loop env (t0 + Z.of_N (clock_lag env 0)) (Args.timeout args)
      {| files := f; ext := x4; now := t0 + Z.of_N (clock_lag env 0); reads := 1;
         trace := pre ++ [Spawn gpg_of (ToFile temp_name) Inherit x2 pg;
                          Spawn (add_of temp_name) Inherit Inherit x3 pa]
                      ++ announce_added |}
    = (how,
       {| files := f; ext := x4; now := t; reads := k;
          trace := (pre ++ [Spawn gpg_of (ToFile temp_name) Inherit x2 pg;
                            Spawn (add_of temp_name) Inherit Inherit x3 pa]
                        ++ announce_added) ++ sel |}) ->
    Forall (fun e => is_select e = true) sel ->
    waited
      ((pre ++ [Spawn gpg_of (ToFile temp_name) Inherit x2 pg;
                Spawn (add_of temp_name) Inherit Inherit x3 pa]
            ++ announce_added) ++ sel)
      x4 t k.

(** Exit status and final world of a whole run. *)
Inductive path : Z * @World Ext -> Prop :=
| path_no_public_key :
    f !! resolved_public_key = None ->
    path (1, {| files := f; ext := x0; now := t0; reads := 0;
                trace := [Print "Error: public key file does not exist"] |})
| path_query_failed pl x1 :
    is_Some (f !! resolved_public_key) ->
    exec env list_command f x0 = Exited pl x1 ->
    returncode pl <> 0 ->
    path (1, {| files := f; ext := x1; now := t0; reads := 0;
                trace := [Spawn list_command Pipe Pipe x0 pl;
                          Print (query_failure pl)] |})
| path_delete_existing_failed pl x1 pd x2 :
    is_Some (f !! resolved_public_key) ->
    exec env list_command f x0 = Exited pl x1 ->
    returncode pl = 0 ->
    is_substring (Args.provisioner_name args) (stdout pl) = true ->
    exec env remove_of f x1 = Exited pd x2 ->
    returncode pd <> 0 ->
    path (1, {| files := f; ext := x2; now := t0; reads := 0;
                trace := [Spawn list_command Pipe Pipe x0 pl;
                          Print ("Provisioner " +:+ Args.provisioner_name args
                                 +:+ " already exists. Deleting existing provisioner...");
                          Spawn remove_of Inherit Inherit x1 pd;
                          Traceback (delete_failure pd)] |})
| path_decrypt_failed pre x2 pg x3 :
    is_Some (f !! resolved_public_key) ->
    prepared pre x2 ->
    exec env gpg_of (<[temp_name := ""]> f) x2 = Exited pg x3 ->
    returncode pg <> 0 ->
    path (1, {| files := f; ext := x3; now := t0; reads := 0;
                trace := pre ++ [Spawn gpg_of (ToFile temp_name) Inherit x2 pg;
                                 Traceback (ValueError "Failed to decrypt private key")] |})
| path_add_failed pre x2 pg x3 pa x4 :
    is_Some (f !! resolved_public_key) ->
    prepared pre x2 ->
    exec env gpg_of (<[temp_name := ""]> f) x2 = Exited pg x3 ->
    returncode pg = 0 ->
    exec env (add_of temp_name) (with_temp (stdout pg)) x3 = Exited pa x4 ->
    returncode pa <> 0 ->
    path (1, {| files := f; ext := x4; now := t0; reads := 0;
                trace := pre ++ [Spawn gpg_of (ToFile temp_name) Inherit x2 pg;
                                 Spawn (add_of temp_name) Inherit Inherit x3 pa;
                                 Traceback (add_failure temp_name pa)] |})
| path_delete_final_failed tr x4 t k pf x5 :
    is_Some (f !! resolved_public_key) ->
    waited tr x4 t k ->
    exec env remove_of f x4 = Exited pf x5 ->
    returncode pf <> 0 ->
    path (1, {| files := f; ext := x5; now := t; reads := k;
                trace := tr ++ [Spawn remove_of Inherit Inherit x4 pf;
                                Traceback (delete_failure pf)] |})
| path_done tr x4 t k pf x5 :
    is_Some (f !! resolved_public_key) ->
    waited tr x4 t k ->
    exec env remove_of f x4 = Exited pf x5 ->
    returncode pf = 0 ->
    path (0, {| files := f; ext := x5; now := t; reads := k;
                trace := tr ++ [Spawn remove_of Inherit Inherit x4 pf;
                                Print ("Provisioner " +:+ Args.provisioner_name args
                                       +:+ " deleted.")] |})
| path_query_not_started err :
    is_Some (f !! resolved_public_key) ->
    exec env list_command f x0 = NotStarted err ->
    path (1, {| files := f; ext := x0; now := t0; reads := 0;
                trace := [Traceback (os_error err list_command)] |})
| path_delete_existing_not_started pl x1 err :
    is_Some (f !! resolved_public_key) ->
    exec env list_command f x0 = Exited pl x1 ->
    returncode pl = 0 ->
    is_substring (Args.provisioner_name args) (stdout pl) = true ->
    exec env remove_of f x1 = NotStarted err ->
    path (1, {| files := f; ext := x1; now := t0; reads := 0;
                trace := [Spawn list_command Pipe Pipe x0 pl;
                          Print ("Provisioner " +:+ Args.provisioner_name args
                                 +:+ " already exists. Deleting existing provisioner...");
                          Traceback (os_error err remove_of)] |})
| path_decrypt_not_started pre x2 err :
    is_Some (f !! resolved_public_key) ->
    prepared pre x2 ->
    exec env gpg_of (<[temp_name := ""]> f) x2 = NotStarted err ->
    path (1, {| files := f; ext := x2; now := t0; reads := 0;
                trace := pre ++ [Traceback (os_error err gpg_of)] |})
| path_add_not_started pre x2 pg x3 err :
    is_Some (f !! resolved_public_key) ->
    prepared pre x2 ->
    exec env gpg_of (<[temp_name := ""]> f) x2 = Exited pg x3 ->
    returncode pg = 0 ->
    exec env (add_of temp_name) (with_temp (stdout pg)) x3 = NotStarted err ->
    path (1, {| files := f; ext := x3; now := t0; reads := 0;
                trace := pre ++ [Spawn gpg_of (ToFile temp_name) Inherit x2 pg;
                                 Traceback (os_error err (add_of temp_name))] |})
| path_delete_final_not_started tr x4 t k err :
    is_Some (f !! resolved_public_key) ->
    waited tr x4 t k ->
    exec env remove_of f x4 = NotStarted err ->
    path (1, {| files := f; ext := x4; now := t; reads := k;
                trace := tr ++ [Traceback (os_error err remove_of)] |}).

(** The lifecycle in the order the specification gives it (query, delete
    if present, decrypt, add, delete): the exit status of a run and the
    commands it issues, as a function of the collaborators alone.  The
    clock, the keyboard and the timeout do not appear in it. *)
Definition lifecycle : Z * list (list string * Ext * proc) :=
  match f !! resolved_public_key with
  | None => (1, [])
  | Some _ =>
      match exec env list_command f x0 with
      | NotStarted _ => (1, [])
      | Exited pl x1 =>
          if negb (returncode pl =? 0) then (1, [(list_command, x0, pl)])
          else
            let deleted :=
              if is_substring (Args.provisioner_name args) (stdout pl)
              then
                match exec env remove_of f x1 with
                | NotStarted _ => (false, [(list_command, x0, pl)], x1)
                | Exited pd x2 =>
                    (returncode pd =? 0,
                     [(list_command, x0, pl); (remove_of, x1, pd)], x2)
                end
              else (true, [(list_command, x0, pl)], x1) in
            let '(deleted, cs, x2) := deleted in
            if negb deleted then (1, cs)
            else
              match exec env gpg_of (<[temp_name := ""]> f) x2 with
              | NotStarted _ => (1, cs)
              | Exited pg x3 =>
                  if negb (returncode pg =? 0) then (1, cs ++ [(gpg_of, x2, pg)])
                  else
                    match exec env (add_of temp_name) (with_temp (stdout pg)) x3 with
                    | NotStarted _ => (1, cs ++ [(gpg_of, x2, pg)])
                    | Exited pa x4 =>
                        if negb (returncode pa =? 0)
                        then (1, cs ++ [(gpg_of, x2, pg); (add_of temp_name, x3, pa)])
                        else
                          match exec env remove_of f x4 with
                          | NotStarted _ =>
                              (1, cs ++ [(gpg_of, x2, pg); (add_of temp_name, x3, pa)])
                          | Exited pf x5 =>
                              (if returncode pf =? 0 then 0 else 1,
                               cs ++ [(gpg_of, x2, pg); (add_of temp_name, x3, pa);
                                      (remove_of, x4, pf)])
                          end
                    end
              end
      end
  end.

End Paths.

(** * Properties *)

(** ** Strings *)

Lemma append_nil_l (b : string) : "" +:+ b = b.
Proof. reflexivity. Qed.

Lemma append_cons (c : ascii) (a b : string) :
  String c a +:+ b = String c (a +:+ b).
Proof. reflexivity. Qed.

Lemma append_nil_r (s : string) : s +:+ "" = s.
Proof.
  induction s as [|c s IH]; [reflexivity|]. rewrite append_cons, IH. reflexivity.
Qed.

Lemma append_assoc (a b c : string) : (a +:+ b) +:+ c = a +:+ (b +:+ c).
Proof.
  induction a as [|x a IH]; [reflexivity|]. rewrite !append_cons, IH. reflexivity.
Qed.

Lemma prefix_spec (n h : string) :
  String.prefix n h = true <-> exists b, h = n +:+ b.
Proof.
  revert h. induction n as [|c n IH]; intros h.
  - split; [intros _; exists h; reflexivity|intros _; destruct h; reflexivity].
  - destruct h as [|d h]; simpl.
    + split; [discriminate|]. intros [b Hb]. discriminate Hb.
    + destruct (ascii_dec c d) as [->|Hne].
      * rewrite IH. split; intros [b Hb]; exists b.
        -- rewrite Hb. reflexivity.
        -- rewrite append_cons in Hb. injection Hb as ->. reflexivity.
      * split; [discriminate|]. intros [b Hb]. rewrite append_cons in Hb.
        injection Hb as <- _. contradiction.
Qed.

(** Python's [in] is the search for an occurrence. *)
Lemma is_substring_spec (n h : string) :
  is_substring n h = true <-> exists a b, h = a +:+ n +:+ b.
Proof.
  induction h as [|c h IH].
  - change (is_substring n "") with (String.prefix n "" || false).
    rewrite orb_false_r, prefix_spec. split.
    + intros [b Hb]. exists "", b. exact Hb.
    + intros (a & b & Hab). destruct a; [exists b; exact Hab|discriminate Hab].
  - change (is_substring n (String c h))
      with (String.prefix n (String c h) || is_substring n h).
    rewrite orb_true_iff, prefix_spec, IH. split.
    + intros [[b Hb]|(a & b & Hab)].
      * exists "", b. exact Hb.
      * exists (String c a), b. rewrite append_cons, Hab. reflexivity.
    + intros (a & b & Hab). destruct a as [|d a].
      * left. exists b. exact Hab.
      * right. rewrite append_cons in Hab. injection Hab as -> ->.
        exists a, b. reflexivity.
Qed.


(** ** The reference collaborators keep the contract *)

Lemma listing_shows (names : list string) (n : string) :
  n ∈ names ->
  is_substring n (join "" ((fun n => n +:+ Ref.newline) <$> names)) = true.
Proof.
  intros Hin. apply is_substring_spec.
  induction names as [|m names IH]; [inversion Hin|].
  assert (join "" ((fun n => n +:+ Ref.newline) <$> m :: names)
          = (m +:+ Ref.newline)
            +:+ join "" ((fun n => n +:+ Ref.newline) <$> names)) as ->.
  { simpl. destruct names; simpl; [|reflexivity].
    rewrite append_nil_r. reflexivity. }
  apply elem_of_cons in Hin as [->|Hin].
  - exists "", (Ref.newline +:+ join "" ((fun n => n +:+ Ref.newline) <$> names)).
    rewrite append_nil_l. apply append_assoc.
  - destruct (IH Hin) as (a & b & Hab). rewrite Hab.
    exists ((m +:+ Ref.newline) +:+ a), b. rewrite !append_assoc. reflexivity.
Qed.

Lemma ref_honours_contract (key : option Z) :
  honours_contract Ref.provisioners (Ref.env key).
Proof.
  split.
  - intros f x p x'. simpl.
    destruct (Ref.online x); intros Hrun; injection Hrun as _ <-; reflexivity.
  - intros f x n p x'. simpl.
    destruct (Ref.online x); intros Hrun; injection Hrun as <- _; simpl;
      [|discriminate].
    intros _. apply listing_shows.
  - intros f x n ap sub p x'. simpl.
    destruct (Ref.online x); simpl;
      [|intros Hrun; injection Hrun as <- _; discriminate].
    destruct (bool_decide (Ref.quota x = 0%nat)); simpl;
      [intros Hrun; injection Hrun as <- _; discriminate|].
    destruct (bool_decide (n ∈ Ref.provisioners x)); simpl;
      intros Hrun; injection Hrun as <- <-; [|discriminate].
    intros _ Hin. apply list_elem_of_In, filter_In in Hin as [_ Hne].
    rewrite String.eqb_refl in Hne. discriminate Hne.
  - intros f x path p x'. simpl.
    destruct (f !! path) as [text|];
      [|intros Hrun; injection Hrun as _ <-; reflexivity].
    change (match Ref.strip "GPG:" text with
            | Some plain => Exited (mkProc 0 plain "") x
            | None => Exited (mkProc 2 "" "gpg: no valid OpenPGP data found.") x
            end = Exited p x' -> Ref.provisioners x' = Ref.provisioners x).
    destruct (Ref.strip "GPG:" text); intros Hrun; injection Hrun as _ <-;
      reflexivity.
Qed.

(** Taking a program away breaks no clause of the contract. *)
Lemma without_honours_contract prog (e : @Env Ref.CA) namespace :
  honours_contract namespace e -> honours_contract namespace (Ref.without prog e).
Proof.
  intros Hc. split; unfold Ref.without; cbn [exec].
  - intros f x p x'. destruct (String.eqb (hd "" _) prog); [discriminate|].
    apply (list_keeps _ _ Hc).
  - intros f x n p x'. destruct (String.eqb (hd "" _) prog); [discriminate|].
    apply (list_shows _ _ Hc).
  - intros f x n ap sub p x'.
    destruct (String.eqb (hd "" _) prog); [discriminate|].
    apply (remove_removes _ _ Hc).
  - intros f x path p x'. destruct (String.eqb (hd "" _) prog); [discriminate|].
    apply (gpg_keeps _ _ Hc).
Qed.

Section Waiting.

Context {Ext : Type} (env : @Env Ext).

Lemma select_stdin_frame interval (w : World) :
  exists t ready,
    select_stdin env interval w
    = (ready, {| files := files w; ext := ext w; now := t; reads := reads w;
                 trace := trace w ++ [Select t ready] |}).
Proof.
  unfold select_stdin, wake.
  destruct (stdin_at env) as [a|]; [|eauto].
  destruct (a <=? now w); [eauto|]. destruct (a <? now w + interval); eauto.
Qed.

(** Induction along the turns of the loop. *)
Lemma wait_loop_turns start_time timeout0
  (P : World -> wait_outcome * World -> Prop) :
  (forall w, (usec timeout0 <? (time_time env w).1 - start_time) = true ->
     P w (timedOut, (time_time env w).2)) ->
  (forall w w2, (usec timeout0 <? (time_time env w).1 - start_time) = false ->
     select_stdin env poll_interval (time_time env w).2 = (true, w2) ->
     P w (cancelled, w2)) ->
  (forall w w2, (usec timeout0 <? (time_time env w).1 - start_time) = false ->
     select_stdin env poll_interval (time_time env w).2 = (false, w2) ->
     P w2 (wait_loop env start_time timeout0 w2) ->
     P w (wait_loop env start_time timeout0 w2)) ->
  forall w, P w (wait_loop env start_time timeout0 w).
Proof.
  intros Hout Hkey Hturn w.
  funelim (wait_loop env start_time timeout0 w);
    repeat match goal with H : sigmaI _ _ _ = sigmaI _ _ _ |- _ => clear H end;
    clear Heqcall.
  - apply (Hout w). assumption.
  - apply Hkey; assumption.
  - apply Hturn; try assumption. apply H; assumption.
Qed.

(** One turn of the loop. *)
Lemma wait_loop_turn start_time timeout0 (w : World) :
  wait_loop env start_time timeout0 w
  = let '(t, w1) := time_time env w in
    if usec timeout0 <? t - start_time then (timedOut, w1)
    else let '(ready, w2) := select_stdin env poll_interval w1 in
         if ready then (cancelled, w2)
         else wait_loop env start_time timeout0 w2.
Proof.
  apply (wait_loop_turns start_time timeout0 (fun w r =>
    r = let '(t, w1) := time_time env w in
        if usec timeout0 <? t - start_time then (timedOut, w1)
        else let '(ready, w2) := select_stdin env poll_interval w1 in
             if ready then (cancelled, w2)
             else wait_loop env start_time timeout0 w2));
    clear w; intros w.
  - destruct (time_time env w) as [t w1]. simpl. intros ->. reflexivity.
  - intros w2. destruct (time_time env w) as [t w1]. simpl.
    intros -> ->. reflexivity.
  - intros w2. destruct (time_time env w) as [t w1]. simpl.
    intros -> -> _. reflexivity.
Qed.

(** The loop touches neither the files nor the collaborators, and all it
    adds to the history is its polls. *)
Lemma wait_loop_frame start_time timeout0 (w : World) :
  exists t k sel,
    (wait_loop env start_time timeout0 w).2
    = {| files := files w; ext := ext w; now := t; reads := k;
         trace := trace w ++ sel |}
    /\ Forall (fun e => is_select e = true) sel.
Proof.
  apply (wait_loop_turns start_time timeout0 (fun w r =>
    exists t k sel,
      r.2 = {| files := files w; ext := ext w; now := t; reads := k;
               trace := trace w ++ sel |}
      /\ Forall (fun e => is_select e = true) sel)); clear w; intros w.
  - intros _. eexists _, _, []. rewrite app_nil_r.
    split; [reflexivity|constructor].
  - intros w2 _ Hs.
    destruct (select_stdin_frame poll_interval (time_time env w).2)
      as (t & r & Hf).
    rewrite Hf in Hs. injection Hs as -> <-.
    eexists _, _, [_]. split; [reflexivity|]. repeat constructor.
  - intros w2 _ Hs (t' & k' & sel & -> & Hsel).
    destruct (select_stdin_frame poll_interval (time_time env w).2)
      as (t & r & Hf).
    rewrite Hf in Hs. injection Hs as -> <-. simpl.
    eexists _, _, (_ :: sel). rewrite <- app_assoc. split; [reflexivity|].
    constructor; [reflexivity|assumption].
Qed.

(** With nobody at the keyboard and a clock that lags by at most one
    interval a turn, the loop ends on the timeout, after more than the
    timeout and at most two intervals beyond it. *)
Lemma wait_loop_times_out start_time timeout0 :
  stdin_at env = None ->
  (forall k, Z.of_N (clock_lag env k) <= poll_interval) ->
  forall w, now w - start_time <= usec timeout0 + poll_interval ->
    (wait_loop env start_time timeout0 w).1 = timedOut
    /\ usec timeout0 < now (wait_loop env start_time timeout0 w).2 - start_time
       <= usec timeout0 + 2 * poll_interval.
Proof.
  intros Hnone Hlag.
  apply (wait_loop_turns start_time timeout0 (fun w r =>
    now w - start_time <= usec timeout0 + poll_interval ->
    r.1 = timedOut
    /\ usec timeout0 < now r.2 - start_time <= usec timeout0 + 2 * poll_interval)).
  - intros w Hc Hinv. simpl in *. apply Z.ltb_lt in Hc.
    specialize (Hlag (reads w)). split; [reflexivity|lia].
  - intros w w2 _ Hs _. unfold select_stdin in Hs. rewrite Hnone in Hs.
    discriminate Hs.
  - intros w w2 Hc Hs IH _. apply IH. apply Z.ltb_ge in Hc.
    unfold select_stdin in Hs. rewrite Hnone in Hs.
    injection Hs as <-. simpl in *. lia.
Qed.


(** A deadline already behind the first reading of the clock: the loop
    leaves at its first test, before any poll. *)
Lemma wait_loop_skips start_time timeout0 (w : World) :
  usec timeout0 < now w + Z.of_N (clock_lag env (reads w)) - start_time ->
  wait_loop env start_time timeout0 w = (timedOut, (time_time env w).2).
Proof.
  intros Hpast. rewrite wait_loop_turn. unfold time_time.
  apply Z.ltb_lt in Hpast. rewrite Hpast. reflexivity.
Qed.

(** C6, for a timeout that is not negative: with nobody at the keyboard,
    and a clock lagging by at most one polling interval a turn, the wait
    always ends, on the timeout, more than [T] and at most [T + 1] seconds
    after it began. *)
Theorem wait_times_out_within_a_second (T : Z) (w : World) :
  0 <= T ->
  stdin_at env = None ->
  (forall k, Z.of_N (clock_lag env k) <= poll_interval) ->
  (wait_loop env (now w) T w).1 = timedOut
  /\ usec T < now (wait_loop env (now w) T w).2 - now w <= usec (T + 1).
Proof.
  intros HT Hnone Hlag.
  replace (usec (T + 1)) with (usec T + 2 * poll_interval)
    by (unfold usec, poll_interval; lia).
  apply wait_loop_times_out; try assumption.
  unfold usec, poll_interval. lia.
Qed.


End Waiting.

Section Runs.

Context {Ext : Type} (env : @Env Ext).

Arguments str_exn : simpl never.
Arguments is_substring : simpl never.
Arguments fresh_string : simpl never.
Arguments pretty : simpl never.
Arguments str_path : simpl never.
Arguments wait_loop : simpl never.

Ltac unfold_script :=
  unfold run_script, main, check_provisioner, delete_provisioner,
    add_provisioner, named_temporary_file, subprocess_run, try_except,
    bind, ret, raise, exit, print, lift, path_exists, emit, set_files,
    initial.

Lemma temp_file_gone (f : gmap string string) text :
  delete (temp_name f) (with_temp f text) = f.
Proof.
  unfold with_temp. rewrite insert_insert_eq, delete_insert_eq.
  apply delete_id, fresh_string_fresh.
Qed.

Lemma temp_file_emptied (f : gmap string string) :
  delete (temp_name f) (<[temp_name f := ""]> f) = f.
Proof. rewrite delete_insert_eq. apply delete_id, fresh_string_fresh. Qed.

(** From ADD to the end, given how the run got there. *)
Ltac from_add Hpub Hprep :=
  let pg := fresh "pg" in let x3 := fresh "x3" in
  let pa := fresh "pa" in let x4 := fresh "x4" in
  let pf := fresh "pf" in let x5 := fresh "x5" in
  let eg := fresh "eg" in let ea := fresh "ea" in let ef := fresh "ef" in
  let Hgpg := fresh "Hgpg" in let Hadd := fresh "Hadd" in
  let Hfin := fresh "Hfin" in let Hgone := fresh "Hgone" in
  let Hempty := fresh "Hempty" in
  let Hrg := fresh "Hrg" in let Hra := fresh "Hra" in let Hrf := fresh "Hrf" in
  let t := fresh "t" in let k := fresh "k" in let sel := fresh "sel" in
  let how := fresh "how" in let w5 := fresh "w5" in
  let Hfr := fresh "Hfr" in let Hsel := fresh "Hsel" in let Hw := fresh "Hw" in
  let Hwt := fresh "Hwt" in let HP := fresh "HP" in
  match type of Hprep with
  | prepared _ _ ?f _ ?pre ?x2 =>
      simpl;
      pose proof (temp_file_emptied f) as Hempty; unfold temp_name in Hempty;
      destruct (exec env _ (<[fresh_string "/tmp/tmp" f := ""]> f) x2)
        as [pg x3|eg] eqn:Hgpg; simpl;
      [|destruct eg; simpl; rewrite Hempty;
        exact (path_decrypt_not_started _ _ _ _ _ pre x2 _ Hpub Hprep Hgpg)];
      pose proof (temp_file_gone f (stdout pg)) as Hgone;
      unfold with_temp, temp_name in Hgone;
      destruct (Z.eqb_spec (returncode pg) 0) as [Hrg|Hrg]; simpl;
      [|rewrite Hgone;
        exact (path_decrypt_failed _ _ _ _ _ pre x2 pg x3 Hpub Hprep Hgpg Hrg)];
      destruct (exec env _ (<[fresh_string "/tmp/tmp" f := stdout pg]> _) x3)
        as [pa x4|ea] eqn:Hadd; simpl;
      [|destruct ea; simpl; rewrite Hgone;
        exact (path_add_not_started _ _ _ _ _ pre x2 pg x3 _
                 Hpub Hprep Hgpg Hrg Hadd)];
      destruct (Z.eqb_spec (returncode pa) 0) as [Hra|Hra]; simpl;
      rewrite Hgone;
      [|exact (path_add_failed _ _ _ _ _ pre x2 pg x3 pa x4
                 Hpub Hprep Hgpg Hrg Hadd Hra)];
      match goal with
      | |- context [wait_loop env ?st ?T ?w] =>
          destruct (wait_loop_frame env st T w) as (t & k & sel & Hfr & Hsel);
          destruct (wait_loop env st T w) as [how w5] eqn:Hw;
          simpl in Hfr; subst w5
      end;
      simpl;
      pose proof (waited_intro _ _ _ _ _ pre x2 pg x3 pa x4 how t k sel
                    Hprep Hgpg Hrg Hadd Hra Hw Hsel) as Hwt;
      destruct (exec env _ f x4) as [pf x5|ef] eqn:Hfin; simpl;
      [destruct (Z.eqb_spec (returncode pf) 0) as [Hrf|Hrf]; simpl;
       [pose proof (path_done _ _ _ _ _ _ x4 t k pf x5 Hpub Hwt Hfin Hrf) as HP
       |pose proof (path_delete_final_failed _ _ _ _ _ _ x4 t k pf x5
                      Hpub Hwt Hfin Hrf) as HP]
      |destruct ef; simpl;
       pose proof (path_delete_final_not_started _ _ _ _ _ _ x4 t k _
                     Hpub Hwt Hfin) as HP];
      simpl in HP; rewrite <- ?app_assoc in HP; rewrite <- ?app_assoc;
      exact HP
  end.

(** Every run of the script follows one of the paths. *)
Lemma run_script_path args f x0 t0 :
  path env args f x0 t0 (run_script env args (initial f x0 t0)).
Proof.
  unfold_script. simpl.
  destruct (bool_decide (is_Some (f !! _))) eqn:Hpub; simpl.
  2:{ apply bool_decide_eq_false in Hpub. apply path_no_public_key.
      apply eq_None_not_Some. exact Hpub. }
  apply bool_decide_eq_true in Hpub.
  destruct (exec env _ f x0) as [pl x1|el] eqn:Hlist; simpl.
  2:{ destruct el; exact (path_query_not_started _ _ _ _ _ _ Hpub Hlist). }
  destruct (Z.eqb_spec (returncode pl) 0) as [Hrl|Hrl]; simpl.
  2:{ apply path_query_failed; assumption. }
  destruct (is_substring (Args.provisioner_name args) (stdout pl)) eqn:Hin; simpl.
  - destruct (exec env _ f x1) as [pd x2|ed] eqn:Hdel; simpl.
    2:{ destruct ed;
          exact (path_delete_existing_not_started _ _ _ _ _ pl x1 _
                   Hpub Hlist Hrl Hin Hdel). }
    destruct (Z.eqb_spec (returncode pd) 0) as [Hrd|Hrd]; simpl.
    2:{ exact (path_delete_existing_failed _ _ _ _ _ pl x1 pd x2
                 Hpub Hlist Hrl Hin Hdel Hrd). }
    pose proof (prepared_deleted _ _ _ _ pl x1 pd x2 Hlist Hrl Hin Hdel Hrd)
      as Hprep.
    from_add Hpub Hprep.
  - pose proof (prepared_absent _ _ _ _ pl x1 Hlist Hrl Hin) as Hprep.
    from_add Hpub Hprep.
Qed.

Lemma commands_app (tr1 tr2 : list (@event Ext)) :
  commands (tr1 ++ tr2) = commands tr1 ++ commands tr2.
Proof. apply omap_app. Qed.

Lemma commands_selects (sel : list (@event Ext)) :
  Forall (fun e => is_select e = true) sel -> commands sel = [].
Proof.
  induction 1 as [|e sel He _ IH]; [reflexivity|].
  destruct e; try discriminate He. exact IH.
Qed.

Lemma polls_app (tr1 tr2 : list (@event Ext)) :
  polls (tr1 ++ tr2) = (polls tr1 + polls tr2)%nat.
Proof. unfold polls. rewrite List.filter_app, length_app. reflexivity. Qed.











(** C9: when the public key file, resolved against the script's directory,
    does not exist, the process ends with status 1 having run no external
    command at all: no list, delete, add or decrypt; all it did was print
    its complaint. *)
Theorem missing_public_key_fails_fast args f x0 t0 :
  f !! resolved_public_key env args = None ->
  (run_script env args (initial f x0 t0)).1 = 1
  /\ commands (trace (run_script env args (initial f x0 t0)).2) = []
  /\ trace (run_script env args (initial f x0 t0)).2
     = [Print "Error: public key file does not exist"].
Proof.
  intros Hmiss.
  destruct (run_script_path args f x0 t0);
    try (exfalso; eapply is_Some_None; rewrite <- Hmiss; eassumption).
  repeat split.
Qed.

(** C8: with a listing command that returns 0, [check_provisioner] answers
    true exactly when the name occurs somewhere in the listing text; with
    one that returns anything else it raises the query error, and a run
    whose public key is in place then ends with status 1 after that one
    command, which is tried once and followed by no other. *)
Theorem provisioner_exists_iff_listed args f x0 t0 pl x1 :
  exec env list_command f x0 = Exited pl x1 ->
  (returncode pl = 0 ->
     exists w',
       check_provisioner env (Args.provisioner_name args) (initial f x0 t0)
       = (Return (is_substring (Args.provisioner_name args) (stdout pl)), w')
       /\ (is_substring (Args.provisioner_name args) (stdout pl) = true
           <-> exists before after,
                 stdout pl = before +:+ Args.provisioner_name args +:+ after))
  /\ (returncode pl <> 0 ->
        (exists w',
           check_provisioner env (Args.provisioner_name args) (initial f x0 t0)
           = (Raise (CalledProcessError (returncode pl) list_command
                       (Some (stdout pl)) (Some (stderr pl))), w'))
        /\ (is_Some (f !! resolved_public_key env args) ->
              (run_script env args (initial f x0 t0)).1 = 1
              /\ commands (trace (run_script env args (initial f x0 t0)).2)
                 = [(list_command, x0, pl)])).
Proof.
  intros Hlist. split.
  - intros Hrc. unfold check_provisioner, bind, subprocess_run, initial, ret.
    simpl. fold list_command. rewrite Hlist, Hrc. simpl.
    eexists. split; [|apply is_substring_spec].
    destruct (is_substring _ _); reflexivity.
  - intros Hrc. split.
    + unfold check_provisioner, bind, subprocess_run, initial, ret.
      simpl. fold list_command. rewrite Hlist.
      destruct (Z.eqb_spec (returncode pl) 0) as [?|_]; [contradiction|].
      simpl. eexists. reflexivity.
    + intros Hpub.
      destruct (run_script_path args f x0 t0) as
        [Hmiss|pl' x1' _ Hlist' _
        |pl' x1' ? ? _ Hlist' Hrc' |? ? ? ? _ Hprep|? ? ? ? ? ? _ Hprep
        |? ? ? ? ? ? _ Hwt|? ? ? ? ? ? _ Hwt
        |? _ Hlist'|pl' x1' ? _ Hlist' Hrc'|? ? ? _ Hprep|? ? ? ? ? _ Hprep
        |? ? ? ? ? _ Hwt];
        try (destruct Hwt as [? ? ? ? ? ? ? ? ? ? Hprep]);
        try (destruct Hprep as [? ? Hlist' Hrc'|? ? ? ? Hlist' Hrc']);
        try (rewrite Hlist in Hlist'; first [discriminate Hlist'
                                            |injection Hlist' as <- <-]);
        try contradiction.
      * exfalso. eapply is_Some_None. rewrite <- Hmiss. exact Hpub.
      * split; reflexivity.
Qed.

(** C3: the decrypted private key never outlives the operation that uses
    it.  [add_provisioner] leaves the file system exactly as it found it,
    whether gpg fails, the add fails, either cannot be started or both
    succeed, and so does a whole run; [decrypt_file] does so whenever gpg
    ran and failed, and otherwise hands its caller the one new file it
    wrote.  (When gpg cannot be started [decrypt_file] leaves its
    temporary file behind, empty: nothing was decrypted.) *)
Theorem plaintext_file_removed :
  (forall n ap sub priv pub (w : World),
     files (add_provisioner env n ap sub priv pub w).2 = files w)
  /\ (forall args f x0 t0,
        files (run_script env args (initial f x0 t0)).2 = f)
  /\ (forall input output (w : World),
        match decrypt_file env input output w with
        | (Raise (ValueError _), w') => files w' = files w
        | (Raise _, w') =>
            files w' = <[fresh_string "/tmp/tmp" (files w) := ""]> (files w)
        | (Return p, w') =>
            files w !! fresh_string "/tmp/tmp" (files w) = None
            /\ p = path_of (fresh_string "/tmp/tmp" (files w))
            /\ exists text,
                 files w' = <[fresh_string "/tmp/tmp" (files w) := text]> (files w)
        end).
Proof.
  split; [|split].
  - intros n ap sub priv pub w.
    unfold add_provisioner, named_temporary_file, bind, subprocess_run,
      try_except, raise, ret, set_files. simpl.
    pose proof (temp_file_emptied (files w)) as Hempty.
    unfold temp_name in Hempty.
    destruct (exec env _ _ (ext w)) as [pg x3|eg]; simpl;
      [|destruct eg; exact Hempty].
    pose proof (temp_file_gone (files w) (stdout pg)) as Hgone.
    unfold with_temp, temp_name in Hgone.
    destruct (returncode pg =? 0); simpl; [|exact Hgone].
    destruct (exec env _ _ x3) as [pa x4|ea]; simpl;
      [|destruct ea; exact Hgone].
    destruct (returncode pa =? 0); simpl; exact Hgone.
  - intros args f x0 t0.
    destruct (run_script_path args f x0 t0); reflexivity.
  - intros input output w.
    unfold decrypt_file, named_temporary_file, bind, subprocess_run,
      try_except, raise, ret, set_files, unlink. simpl.
    destruct (exec env _ _ (ext w)) as [pg x3|eg]; simpl;
      [|destruct eg; reflexivity].
    pose proof (temp_file_gone (files w) (stdout pg)) as Hgone.
    unfold with_temp, temp_name in Hgone.
    destruct (returncode pg =? 0); simpl.
    + split; [apply fresh_string_fresh|]. split; [reflexivity|].
      exists (stdout pg). apply insert_insert_eq.
    + rewrite lookup_insert_eq. simpl. exact Hgone.
Qed.


(** Status and commands of a run are those of the lifecycle. *)
Lemma run_follows_lifecycle args f x0 t0 :
  ((run_script env args (initial f x0 t0)).1,
   commands (trace (run_script env args (initial f x0 t0)).2))
  = lifecycle env args f x0.
Proof.
  destruct (run_script_path args f x0 t0) as
      [Hm|pl x1 Hpub Hlist Hrl
      |pl x1 pd x2 Hpub Hlist Hrl Hsub Hdel Hrd
      |pre x2 pg x3 Hpub Hprep Hgpg Hrg
      |pre x2 pg x3 pa x4 Hpub Hprep Hgpg Hrg Hadd Hra
      |tr x4 t k pf x5 Hpub Hwt Hfin Hrf
      |tr x4 t k pf x5 Hpub Hwt Hfin Hrf
      |err Hpub Hlist
      |pl x1 err Hpub Hlist Hrl Hsub Hdel
      |pre x2 err Hpub Hprep Hgpg
      |pre x2 pg x3 err Hpub Hprep Hgpg Hrg Hadd
      |tr x4 t k err Hpub Hwt Hfin];
    try (destruct Hwt as [pre x2 pg x3 pa x4' how t' k' sel Hprep Hgpg Hrg Hadd Hra _ Hsel]);
    try (destruct Hprep as [pl x1 Hlist Hrl Hsub|pl x1 pd x2' Hlist Hrl Hsub Hdel Hrd]);
    unfold lifecycle;
    try (destruct Hpub as [? ->]); try rewrite Hm;
    repeat match goal with
           | H : returncode _ <> 0 |- _ => apply Z.eqb_neq in H
           | H : returncode _ = 0 |- _ => apply Z.eqb_eq in H
           end;
    rewrite ?Hlist; cbv beta iota zeta; rewrite ?Hrl; cbv beta iota zeta;
    simpl negb; cbv beta iota zeta;
    rewrite ?Hsub; cbv beta iota zeta;
    try (rewrite Hdel; cbv beta iota zeta; rewrite ?Hrd; simpl negb;
         cbv beta iota zeta);
    try (rewrite Hgpg; cbv beta iota zeta; rewrite ?Hrg; simpl negb;
         cbv beta iota zeta);
    try (rewrite Hadd; cbv beta iota zeta; rewrite ?Hra; simpl negb;
         cbv beta iota zeta);
    try (rewrite Hfin; cbv beta iota zeta; rewrite ?Hrf; cbv beta iota zeta);
    cbn [fst snd trace];
    rewrite ?commands_app;
    try match goal with
        | Hs : Forall _ ?s |- _ => rewrite ?(commands_selects s Hs)
        end;
    rewrite ?app_nil_r;
    reflexivity.
Qed.

Lemma prepared_before_add args f x0 pre x2 :
  prepared env args f x0 pre x2 ->
  polls pre = 0%nat
  /\ forall tmp b p, (add_of args tmp, b, p) ∉ commands pre.
Proof.
  intros [pl x1 _ _ _|pl x1 pd x2' _ _ _ _ _]; (split; [reflexivity|]);
    intros tmp b p Hin; simpl in Hin;
    repeat (apply elem_of_cons in Hin as [Hin|Hin]; [discriminate Hin|]);
    inversion Hin.
Qed.

(** Once the add has succeeded, the history goes on with the two
    announcements, the polls of the wait and the removal: the command
    and what follows it, or, when the command cannot be started, the
    traceback of its [OSError]. *)
Lemma delete_follows_successful_add args f x0 t0 :
  (exists tmp b p,
     (add_of args tmp, b, p)
       ∈ commands (trace (run_script env args (initial f x0 t0)).2)
     /\ returncode p = 0) ->
  exists before sel final,
    trace (run_script env args (initial f x0 t0)).2
    = before ++ announce_added args ++ sel ++ final
    /\ ((exists b' p' last,
           final = [Spawn (remove_of args) Inherit Inherit b' p'; last])
        \/ (exists err, final = [Traceback (os_error err (remove_of args))]))
    /\ polls before = 0%nat
    /\ Forall (fun e => is_select e = true) sel.
Proof.
  destruct (run_script_path args f x0 t0) as
      [Hm|pl x1 _ Hlist Hrl
      |pl x1 pd x2 _ Hlist Hrl Hin Hdel Hrd
      |pre x2 pg x3 _ Hprep Hgpg Hrg
      |pre x2 pg x3 pa x4 _ Hprep Hgpg Hrg Hadd Hra
      |tr x4 t k pf x5 _ Hwt Hfin Hrf
      |tr x4 t k pf x5 _ Hwt Hfin Hrf
      |err _ Hlist
      |pl x1 err _ Hlist Hrl Hin Hdel
      |pre x2 err _ Hprep Hgpg
      |pre x2 pg x3 err _ Hprep Hgpg Hrg Hadd
      |tr x4 t k err _ Hwt Hfin]; simpl.
  - intros (tmp & b & p & Hin & _). inversion Hin.
  - intros (tmp & b & p & Hin & _).
    apply elem_of_cons in Hin as [Hin|Hin]; [discriminate Hin|inversion Hin].
  - intros (tmp & b & p & Hin' & _).
    repeat (apply elem_of_cons in Hin' as [Hin'|Hin']; [discriminate Hin'|]).
    inversion Hin'.
  - intros (tmp & b & p & Hin & _). rewrite commands_app in Hin.
    apply elem_of_app in Hin as [Hin|Hin].
    + exfalso. exact (proj2 (prepared_before_add _ _ _ _ _ Hprep) _ _ _ Hin).
    + simpl in Hin.
      apply elem_of_cons in Hin as [Hin|Hin]; [discriminate Hin|inversion Hin].
  - intros (tmp & b & p & Hin & Hp). rewrite commands_app in Hin.
    apply elem_of_app in Hin as [Hin|Hin].
    + exfalso. exact (proj2 (prepared_before_add _ _ _ _ _ Hprep) _ _ _ Hin).
    + simpl in Hin.
      apply elem_of_cons in Hin as [Hin|Hin]; [discriminate Hin|].
      apply elem_of_cons in Hin as [Hin|Hin]; [|inversion Hin].
      injection Hin as _ _ ->. contradiction.
  - intros _.
    destruct Hwt as [pre x2 pg x3 pa x4 how t k sel Hprep _ _ _ _ _ Hsel].
    exists (pre ++ [Spawn (gpg_of args) (ToFile (temp_name f)) Inherit x2 pg;
                    Spawn (add_of args (temp_name f)) Inherit Inherit x3 pa]),
           sel, [Spawn (remove_of args) Inherit Inherit x4 pf;
                 Traceback (delete_failure args pf)].
    split; [rewrite <- !app_assoc; reflexivity|].
    split; [left; eauto|]. split; [|exact Hsel].
    rewrite polls_app, (proj1 (prepared_before_add _ _ _ _ _ Hprep)).
    reflexivity.
  - intros _.
    destruct Hwt as [pre x2 pg x3 pa x4 how t k sel Hprep _ _ _ _ _ Hsel].
    exists (pre ++ [Spawn (gpg_of args) (ToFile (temp_name f)) Inherit x2 pg;
                    Spawn (add_of args (temp_name f)) Inherit Inherit x3 pa]),
           sel, [Spawn (remove_of args) Inherit Inherit x4 pf;
                 Print ("Provisioner " +:+ Args.provisioner_name args
                        +:+ " deleted.")].
    split; [rewrite <- !app_assoc; reflexivity|].
    split; [left; eauto|]. split; [|exact Hsel].
    rewrite polls_app, (proj1 (prepared_before_add _ _ _ _ _ Hprep)).
    reflexivity.
  - intros (tmp & b & p & Hin & _). inversion Hin.
  - intros (tmp & b & p & Hin' & _).
    repeat (apply elem_of_cons in Hin' as [Hin'|Hin']; [discriminate Hin'|]).
    inversion Hin'.
  - intros (tmp & b & p & Hin & _). rewrite commands_app in Hin.
    apply elem_of_app in Hin as [Hin|Hin].
    + exfalso. exact (proj2 (prepared_before_add _ _ _ _ _ Hprep) _ _ _ Hin).
    + inversion Hin.
  - intros (tmp & b & p & Hin & _). rewrite commands_app in Hin.
    apply elem_of_app in Hin as [Hin|Hin].
    + exfalso. exact (proj2 (prepared_before_add _ _ _ _ _ Hprep) _ _ _ Hin).
    + simpl in Hin.
      apply elem_of_cons in Hin as [Hin|Hin]; [discriminate Hin|inversion Hin].
  - intros _.
    destruct Hwt as [pre x2 pg x3 pa x4 how t k sel Hprep _ _ _ _ _ Hsel].
    exists (pre ++ [Spawn (gpg_of args) (ToFile (temp_name f)) Inherit x2 pg;
                    Spawn (add_of args (temp_name f)) Inherit Inherit x3 pa]),
           sel, [Traceback (os_error err (remove_of args))].
    split; [rewrite <- !app_assoc; reflexivity|].
    split; [right; eauto|]. split; [|exact Hsel].
    rewrite polls_app, (proj1 (prepared_before_add _ _ _ _ _ Hprep)).
    reflexivity.
Qed.

(** When a run ends with status 0 its last command was a removal that
    reported success. *)
Lemma status_0_after_removal args f x0 t0 :
  (run_script env args (initial f x0 t0)).1 = 0 ->
  exists x4 pf,
    exec env (remove_of args) f x4
    = Exited pf (ext (run_script env args (initial f x0 t0)).2)
    /\ returncode pf = 0.
Proof.
  destruct (run_script_path args f x0 t0) as
      [ | | | | | |tr x4 t k pf x5 _ Hwt Hfin Hrf| | | | | ];
    simpl; try discriminate.
  intros _. exists x4, pf. split; [exact Hfin|exact Hrf].
Qed.

Lemma selects_without_polls (sel : list (@event Ext)) :
  Forall (fun e => is_select e = true) sel -> polls sel = 0%nat -> sel = [].
Proof.
  intros [|e sel' He _]; [reflexivity|].
  unfold polls. simpl. rewrite He. discriminate.
Qed.

Lemma prepared_removed (namespace : Ext -> list string) args f x0 pre x2 :
  honours_contract namespace env ->
  Args.provisioner_name args ∈ namespace x0 ->
  prepared env args f x0 pre x2 ->
  (Args.provisioner_name args ∉ namespace x2)
  /\ exists pl x1 pd,
       commands pre = [(list_command, x0, pl); (remove_of args, x1, pd)]
       /\ returncode pd = 0.
Proof.
  intros Hc Hstale [pl x1 Hlist Hrl Hin|pl x1 pd x2' Hlist Hrl Hin Hdel Hrd].
  - exfalso.
    rewrite (list_shows _ _ Hc f x0 (Args.provisioner_name args) pl x1
               Hlist Hrl Hstale) in Hin.
    discriminate Hin.
  - split; [|exists pl, x1, pd; split; [reflexivity|exact Hrd]].
    exact (remove_removes _ _ Hc f x1 _ _ _ pd x2' Hdel Hrd).
Qed.

(** C5: when the authority already holds the configured name, every
    command of the add step, the decryption and the add itself, comes
    after a removal of that name that returned 0, and starts from a state
    of the authority in which the name is gone. *)
Theorem stale_entry_removed_before_add
  (namespace : Ext -> list string) args f x0 t0 :
  honours_contract namespace env ->
  Args.provisioner_name args ∈ namespace x0 ->
  forall argv b p,
    (argv, b, p) ∈ commands (trace (run_script env args (initial f x0 t0)).2) ->
    argv = gpg_of args \/ (exists tmp, argv = add_of args tmp) ->
    (Args.provisioner_name args ∉ namespace b)
    /\ exists pre b' p' post,
         commands (trace (run_script env args (initial f x0 t0)).2)
         = pre ++ (remove_of args, b', p') :: post
         /\ returncode p' = 0
         /\ (argv, b, p) ∈ post.
Proof.
  intros Hc Hstale argv b p Hin Hadd.
  assert (argv <> list_command) as Hnl
    by (destruct Hadd as [->|[tmp ->]]; discriminate).
  assert (argv <> remove_of args) as Hnr
    by (destruct Hadd as [->|[tmp ->]]; discriminate).
  assert (forall x2 pg x3,
            exec env (gpg_of args) (<[temp_name f := ""]> f) x2 = Exited pg x3 ->
            namespace x3 = namespace x2) as Hkeep.
  { intros x2 pg x3 Hgpg.
    exact (gpg_keeps _ _ Hc (<[temp_name f := ""]> f) x2
             (Args.private_key_path args) pg x3 Hgpg). }
  destruct (run_script_path args f x0 t0) as
      [Hm|pl x1 _ Hlist Hrl
      |pl x1 pd x2 _ Hlist Hrl Hsub Hdel Hrd
      |pre x2 pg x3 _ Hprep Hgpg Hrg
      |pre x2 pg x3 pa x4 _ Hprep Hgpg Hrg Hadd' Hra
      |tr x4 t k pf x5 _ Hwt Hfin Hrf
      |tr x4 t k pf x5 _ Hwt Hfin Hrf
      |err _ Hlist
      |pl x1 err _ Hlist Hrl Hsub Hdel
      |pre x2 err _ Hprep Hgpg
      |pre x2 pg x3 err _ Hprep Hgpg Hrg Hadd'
      |tr x4 t k err _ Hwt Hfin]; simpl in Hin |- *;
    try (destruct Hwt as [pre x2 pg x3 pa x4' how t' k' sel Hprep Hgpg _ _ _ _ Hsel]);
    try (destruct (prepared_removed _ _ _ _ _ _ Hc Hstale Hprep)
           as (Hgone & pl & x1 & pd & Hpre & Hrd));
    rewrite ?commands_app in Hin |- *;
    try match goal with
        | Hs : Forall _ ?s |- _ =>
            rewrite ?(commands_selects s Hs) in Hin |- *
        end;
    try match goal with
        | Hp : commands _ = _ |- _ => rewrite ?Hp in Hin |- *
        end;
    simpl in Hin |- *;
    repeat (apply elem_of_cons in Hin as [Hin|Hin];
            [try (exfalso; injection Hin as Ha _ _;
                  first [exact (Hnl Ha)|exact (Hnr Ha)])|]);
    try (inversion Hin; fail).
  all: injection Hin as -> -> ->.
  all: try rewrite (Hkeep _ _ _ Hgpg).
  all: (split; [exact Hgone|]).
  all: eexists [_], _, _, _; (split; [reflexivity|]); (split; [exact Hrd|]).
  all: solve [repeat constructor].
Qed.

(** The only commands a run can issue, with the key paths exactly as
    they stand in the arguments. *)
Lemma commands_take_raw_arguments args f x0 t0 argv b p :
  (argv, b, p) ∈ commands (trace (run_script env args (initial f x0 t0)).2) ->
  argv = list_command
  \/ argv = remove_of args
  \/ argv = ["gpg"; "--decrypt"; Args.private_key_path args]
  \/ argv = ["step-cli"; "ca"; "provisioner"; "add"; "--type"; "jwk";
             "--public-key"; Args.public_key_path args;
             "--private-key"; temp_name f;
             Args.provisioner_name args;
             "--admin-provisioner"; Args.admin_provisioner args;
             "--admin-subject"; Args.admin_subject args].
Proof.
  intros Hin.
  destruct (run_script_path args f x0 t0) as
      [Hm|pl x1 _ Hlist Hrl
      |pl x1 pd x2 _ Hlist Hrl Hsub Hdel Hrd
      |pre x2 pg x3 _ Hprep Hgpg Hrg
      |pre x2 pg x3 pa x4 _ Hprep Hgpg Hrg Hadd' Hra
      |tr x4 t k pf x5 _ Hwt Hfin Hrf
      |tr x4 t k pf x5 _ Hwt Hfin Hrf
      |err _ Hlist
      |pl x1 err _ Hlist Hrl Hsub Hdel
      |pre x2 err _ Hprep Hgpg
      |pre x2 pg x3 err _ Hprep Hgpg Hrg Hadd'
      |tr x4 t k err _ Hwt Hfin]; simpl in Hin;
    try (destruct Hwt as [pre x2 pg x3 pa x4' how t' k' sel Hprep Hgpg _ _ _ _ Hsel]);
    try (destruct Hprep as [pl x1 _ _ _|pl x1 pd x2' _ _ _ _ _]);
    rewrite ?commands_app in Hin;
    try match goal with
        | Hs : Forall _ ?s |- _ => rewrite ?(commands_selects s Hs) in Hin
        end;
    simpl in Hin;
    repeat (apply elem_of_cons in Hin as [Hin|Hin];
            [injection Hin as -> _ _; auto|]);
    inversion Hin.
Qed.

(** C10, as the script has it: with a negative timeout, and with a zero
    timeout when the clock has moved between the reading of [start_time]
    and the first test of the loop, standard input is never polled, so
    that a key press, buffered or not, is never looked at; and when the add
    has succeeded, the removal comes straight after the two
    announcements (the command, or the traceback of its [OSError] when it
    cannot be started). *)
Theorem past_deadline_skips_polling args f x0 t0 :
  Args.timeout args < 0
  \/ (Args.timeout args = 0 /\ (0 < clock_lag env 1)%N) ->
  polls (trace (run_script env args (initial f x0 t0)).2) = 0%nat
  /\ ((exists tmp b p,
         (add_of args tmp, b, p)
           ∈ commands (trace (run_script env args (initial f x0 t0)).2)
         /\ returncode p = 0) ->
      exists before final,
        trace (run_script env args (initial f x0 t0)).2
        = before ++ announce_added args ++ final
        /\ ((exists b' p' last,
               final = [Spawn (remove_of args) Inherit Inherit b' p'; last])
            \/ (exists err,
                  final = [Traceback (os_error err (remove_of args))]))).
Proof.
  intros Hpast.
  assert (polls (trace (run_script env args (initial f x0 t0)).2) = 0%nat)
    as Hpolls.
  { destruct (run_script_path args f x0 t0) as
        [Hm|pl x1 _ Hlist Hrl
        |pl x1 pd x2 _ Hlist Hrl Hsub Hdel Hrd
        |pre x2 pg x3 _ Hprep Hgpg Hrg
        |pre x2 pg x3 pa x4 _ Hprep Hgpg Hrg Hadd' Hra
        |tr x4 t k pf x5 _ Hwt Hfin Hrf
        |tr x4 t k pf x5 _ Hwt Hfin Hrf
        |err _ Hlist
        |pl x1 err _ Hlist Hrl Hsub Hdel
        |pre x2 err _ Hprep Hgpg
        |pre x2 pg x3 err _ Hprep Hgpg Hrg Hadd'
        |tr x4 t k err _ Hwt Hfin]; simpl; try reflexivity;
      try (rewrite polls_app, (proj1 (prepared_before_add _ _ _ _ _ Hprep));
           reflexivity).
    all: destruct Hwt as [pre x2' pg' x3' pa x4' how t' k' sel Hprep _ _ _ _ Hw _].
    all: rewrite wait_loop_skips in Hw
           by (simpl; unfold usec; destruct Hpast as [?|[-> ?]]; lia).
    all: injection Hw as _ _ _ Hsel.
    all: assert (sel = []) as ->
           by (apply (f_equal length) in Hsel; rewrite !length_app in Hsel;
               destruct sel; [reflexivity|simpl in Hsel; lia]).
    all: rewrite !polls_app, (proj1 (prepared_before_add _ _ _ _ _ Hprep)).
    all: reflexivity. }
  split; [exact Hpolls|].
  intros Hadd.
  destruct (delete_follows_successful_add args f x0 t0 Hadd)
    as (before & sel & final & Htr & Hfinal & _ & Hsel).
  rewrite Htr, !polls_app in Hpolls.
  assert (sel = []) as -> by (apply selects_without_polls; [exact Hsel|lia]).
  exists before, final. split; [exact Htr|exact Hfinal].
Qed.

End Runs.

(** The lifecycle is the same under any clock, keyboard and timeout. *)
Lemma lifecycle_ignores_wait {Ext} (env : @Env Ext) lag key T args f x0 :
  lifecycle (with_keyboard lag key env) (with_timeout T args) f x0
  = lifecycle env args f x0.
Proof. reflexivity. Qed.

(** C4, first half as stated, second half as the script has it: once the
    add has succeeded, the history goes on with the two announcements, the
    polls of the wait, and the removal of the provisioner (the command,
    or the traceback of its [OSError] when it cannot be started), whatever
    the polls found; the exit status and the commands of a run are the same
    under any keyboard, clock and timeout; and when the run ends with
    status 0 the removal reported success, so that by the tool's contract
    the name is no longer among the authority's provisioners. *)
Theorem final_delete_follows_wait {Ext} (env : @Env Ext)
  (namespace : Ext -> list string) args f x0 t0 :
  honours_contract namespace env ->
  ((exists tmp b p,
      (add_of args tmp, b, p)
        ∈ commands (trace (run_script env args (initial f x0 t0)).2)
      /\ returncode p = 0) ->
   exists before sel final,
     trace (run_script env args (initial f x0 t0)).2
     = before ++ announce_added args ++ sel ++ final
     /\ ((exists b' p' last,
            final = [Spawn (remove_of args) Inherit Inherit b' p'; last])
         \/ (exists err, final = [Traceback (os_error err (remove_of args))]))
     /\ polls before = 0%nat
     /\ Forall (fun e => is_select e = true) sel)
  /\ (forall lag key T t0',
        (run_script (with_keyboard lag key env) (with_timeout T args)
           (initial f x0 t0')).1
        = (run_script env args (initial f x0 t0)).1
        /\ commands (trace (run_script (with_keyboard lag key env)
                              (with_timeout T args) (initial f x0 t0')).2)
           = commands (trace (run_script env args (initial f x0 t0)).2))
  /\ ((run_script env args (initial f x0 t0)).1 = 0 ->
      Args.provisioner_name args
        ∉ namespace (ext (run_script env args (initial f x0 t0)).2)).
Proof.
  intros Hc. split; [|split].
  - apply delete_follows_successful_add.
  - intros lag key T t0'.
    pose proof (run_follows_lifecycle (with_keyboard lag key env)
                  (with_timeout T args) f x0 t0') as H1.
    pose proof (run_follows_lifecycle env args f x0 t0) as H2.
    rewrite lifecycle_ignores_wait, <- H2 in H1.
    injection H1 as -> ->. split; reflexivity.
  - intros Hst.
    destruct (status_0_after_removal env args f x0 t0 Hst) as (x4 & pf & Hfin & Hrf).
    exact (remove_removes _ _ Hc f x4 _ _ _ pf _ Hfin Hrf).
Qed.


(** No file at all: the default public key is missing. *)
Lemma missing_public_key_fails_fast_witness :
  (∅ : gmap string string) !! resolved_public_key (Ref.env None) default_args = None
  /\ (run_script (Ref.env None) default_args (initial ∅ (Ref.ca []) 0)).1 = 1
  /\ commands (trace (run_script (Ref.env None) default_args (initial ∅ (Ref.ca []) 0)).2) = []
  /\ trace (run_script (Ref.env None) default_args (initial ∅ (Ref.ca []) 0)).2
     = [Print "Error: public key file does not exist"].
Proof.
  split; [reflexivity|].
  apply (missing_public_key_fails_fast (Ref.env None) default_args ∅ (Ref.ca []) 0).
  reflexivity.
Defined.

(** An authority that cannot be reached: the listing returns 1 and is the
    only command of the run. *)
Lemma provisioner_exists_iff_listed_witness :
  let env := Ref.env None in
  let f := Ref.keys_everywhere in
  let x0 := {| Ref.provisioners := ["tempjwk"]; Ref.online := false; Ref.quota := 10 |} in
  exec env list_command f x0 = Exited Ref.refused x0
  /\ returncode Ref.refused <> 0
  /\ is_Some (f !! resolved_public_key env default_args)
  /\ (run_script env default_args (initial f x0 0)).1 = 1
  /\ commands (trace (run_script env default_args (initial f x0 0)).2)
     = [(list_command, x0, Ref.refused)].
Proof.
  intros env f x0.
  assert (exec env list_command f x0 = Exited Ref.refused x0) as Hlist
    by reflexivity.
  assert (returncode Ref.refused <> 0) as Hrc by (simpl; lia).
  assert (is_Some (f !! resolved_public_key env default_args)) as Hpub
    by (vm_compute; eauto).
  split; [exact Hlist|]. split; [exact Hrc|]. split; [exact Hpub|].
  exact (proj2 (proj2 (provisioner_exists_iff_listed env default_args f x0 0
                         Ref.refused x0 Hlist) Hrc) Hpub).
Defined.

(** ** Runs of the script against the reference collaborators *)

(** C1: with the key files installed next to the script and the process
    started elsewhere, START finds the public key under the script's
    directory, yet gpg is handed the private key path as typed and fails
    on it; with the files also present in the working directory, the add
    command is handed the public key path as typed.  The resolved paths,
    [/opt/tempjwk/key.pub] and [/opt/tempjwk/key.priv.gpg], reach no
    command. *)
Theorem add_step_is_given_unresolved_paths :
  let env := Ref.env (Some 0) in
  let there := run_script env default_args (initial Ref.keys_by_script (Ref.ca []) 0) in
  let both := run_script env default_args (initial Ref.keys_everywhere (Ref.ca []) 0) in
  resolved_public_key env default_args = "/opt/tempjwk/key.pub"
  /\ resolved_private_key env default_args = "/opt/tempjwk/key.priv.gpg"
  /\ is_Some (Ref.keys_by_script !! resolved_public_key env default_args)
  /\ there.1 = 1
  /\ (fun c => c.1.1) <$> commands (trace there.2)
     = [list_command; ["gpg"; "--decrypt"; "key.priv.gpg"]]
  /\ both.1 = 0
  /\ (fun c => c.1.1) <$> commands (trace both.2)
     = [list_command;
        ["gpg"; "--decrypt"; "key.priv.gpg"];
        ["step-cli"; "ca"; "provisioner"; "add"; "--type"; "jwk";
         "--public-key"; "key.pub"; "--private-key"; "/tmp/tmp"; "tempjwk";
         "--admin-provisioner"; "KumiDC"; "--admin-subject"; "admin"];
        ["step-cli"; "ca"; "provisioner"; "remove"; "tempjwk";
         "--admin-provisioner"; "KumiDC"; "--admin-subject"; "admin"]].
Proof.
  vm_compute. repeat split. eauto.
Qed.



(** A removal that fails leaves [main] as a [ValueError]: the line [main]
    would print for it is never printed, the interpreter reports the
    exception. *)
Example delete_failure_escapes_main :
  trace (run_script (Ref.env None) default_args
           (initial Ref.keys_everywhere Ref.locked 0)).2
  = [Spawn list_command Pipe Pipe Ref.locked
       (mkProc 0 ("tempjwk" +:+ Ref.newline) "");
     Print "Provisioner tempjwk already exists. Deleting existing provisioner...";
     Spawn (remove_of default_args) Inherit Inherit Ref.locked
       (mkProc 1 "" "error: admin credential rejected");
     Traceback (ValueError "Error: Failed to delete provisioner: Command '['step-cli', 'ca', 'provisioner', 'remove', 'tempjwk', '--admin-provisioner', 'KumiDC', '--admin-subject', 'admin']' returned non-zero exit status 1.")].
Proof. vm_compute. reflexivity. Qed.

(** The authority holds [tempjwk] and [tempjwk-ci]; the key is pressed
    after two seconds.  The run ends with status 0 and [tempjwk] is gone,
    yet [check_provisioner] still answers true for it. *)
Lemma listed_again_after_successful_run :
  let env := Ref.env (Some 2000000) in
  let r := run_script env default_args
             (initial Ref.keys_everywhere (Ref.ca ["tempjwk"; "tempjwk-ci"]) 0) in
  r.1 = 0
  /\ Ref.provisioners (ext r.2) = ["tempjwk-ci"]
  /\ (check_provisioner env "tempjwk" r.2).1 = Return true.
Proof.
  vm_compute. repeat split.
Qed.

(** The same run: status 0, and the name is no longer a provisioner. *)
Lemma final_delete_follows_wait_witness :
  let env := Ref.env (Some 2000000) in
  let r := run_script env default_args
             (initial Ref.keys_everywhere (Ref.ca ["tempjwk"; "tempjwk-ci"]) 0) in
  honours_contract Ref.provisioners env
  /\ r.1 = 0
  /\ "tempjwk" ∉ Ref.provisioners (ext r.2).
Proof.
  intros env r.
  split; [apply ref_honours_contract|].
  assert (r.1 = 0) as Hst by (vm_compute; reflexivity).
  split; [exact Hst|].
  exact (proj2 (proj2 (final_delete_follows_wait env Ref.provisioners
                         default_args Ref.keys_everywhere
                         (Ref.ca ["tempjwk"; "tempjwk-ci"]) 0
                         (ref_honours_contract _))) Hst).
Defined.

(** The authority holds [tempjwk] at the start: gpg runs from a state in
    which it has been removed. *)
Lemma stale_entry_removed_before_add_witness :
  let env := Ref.env (Some 2000000) in
  let x0 := Ref.ca ["tempjwk"] in
  let r := run_script env default_args (initial Ref.keys_everywhere x0 0) in
  honours_contract Ref.provisioners env
  /\ "tempjwk" ∈ Ref.provisioners x0
  /\ (gpg_of default_args, Ref.spend x0 [], mkProc 0 "PRIVATE" "")
       ∈ commands (trace r.2)
  /\ "tempjwk" ∉ Ref.provisioners (Ref.spend x0 []).
Proof.
  intros env x0 r.
  assert ("tempjwk" ∈ Ref.provisioners x0) as Hstale
    by (vm_compute; repeat constructor).
  assert ((gpg_of default_args, Ref.spend x0 [], mkProc 0 "PRIVATE" "")
            ∈ commands (trace r.2)) as Hin
    by (vm_compute; repeat constructor).
  split; [apply ref_honours_contract|]. split; [exact Hstale|].
  split; [exact Hin|].
  exact (proj1 (stale_entry_removed_before_add env Ref.provisioners default_args
                  Ref.keys_everywhere x0 0 (ref_honours_contract _) Hstale
                  _ _ _ Hin (or_introl eq_refl))).
Defined.

(** [--timeout -2], nobody at the keyboard: the wait is over at once, zero
    seconds after it began, which is more than [-2 + 1] seconds. *)
Lemma negative_timeout_returns_at_once :
  let w := initial ∅ (Ref.ca []) 0 in
  let r := wait_loop (Ref.env None) (now w) (-2) w in
  r.1 = timedOut
  /\ now r.2 - now w = 0
  /\ ~ (now r.2 - now w <= usec (-2 + 1)).
Proof.
  vm_compute. repeat split. intros H. apply H. reflexivity.
Qed.

(** [--timeout 3], nobody at the keyboard. *)
Lemma wait_times_out_within_a_second_witness :
  let w := initial ∅ (Ref.ca []) 0 in
  let r := wait_loop (Ref.env None) (now w) 3 w in
  0 <= 3
  /\ stdin_at (Ref.env None) = None
  /\ (forall k, Z.of_N (clock_lag (Ref.env None) k) <= poll_interval)
  /\ r.1 = timedOut
  /\ usec 3 < now r.2 - now w <= usec (3 + 1).
Proof.
  intros w r.
  assert (0 <= 3) as H3 by lia.
  assert (stdin_at (Ref.env None) = None) as Hnone by reflexivity.
  assert (forall k, Z.of_N (clock_lag (Ref.env None) k) <= poll_interval)
    as Hlag by (intros k; simpl; unfold poll_interval; lia).
  split; [exact H3|]. split; [exact Hnone|]. split; [exact Hlag|].
  exact (wait_times_out_within_a_second (Ref.env None) 3 w H3 Hnone Hlag).
Defined.


(** [--timeout 0], a key press already buffered, and a clock whose two
    readings around the start of the loop coincide: the first test,
    [0 > 0], fails, standard input is polled and the key press is seen. *)
Lemma zero_timeout_still_polls :
  let r := run_script (Ref.env (Some 0)) (with_timeout 0 default_args)
             (initial Ref.keys_everywhere (Ref.ca []) 0) in
  Args.timeout (with_timeout 0 default_args) <= 0
  /\ polls (trace r.2) = 1%nat
  /\ Select 0 true ∈ trace r.2.
Proof.
  vm_compute. split; [discriminate|]. split; [reflexivity|].
  repeat constructor.
Qed.

(** [--timeout -5] with a key press already buffered: no poll. *)
Lemma past_deadline_skips_polling_witness :
  let r := run_script (Ref.env (Some 0)) (with_timeout (-5) default_args)
             (initial Ref.keys_everywhere (Ref.ca []) 0) in
  Args.timeout (with_timeout (-5) default_args) < 0
  /\ polls (trace r.2) = 0%nat.
Proof.
  intros r.
  assert (Args.timeout (with_timeout (-5) default_args) < 0) as Hneg
    by (simpl; lia).
  split; [exact Hneg|].
  exact (proj1 (past_deadline_skips_polling (Ref.env (Some 0))
                  (with_timeout (-5) default_args)
                  Ref.keys_everywhere (Ref.ca []) 0 (or_introl Hneg))).
Defined.

(** * Further properties of the script *)

(** ** The wait, under any keyboard *)

Section WaitingFurther.

Context {Ext : Type} (env : @Env Ext).

(** X1: the loop never reports more than happened.  It leaves on the
    timeout only when the clock it read is more than the timeout past
    [start_time], and as cancelled only when a key press exists and was
    readable by the time it returns: no early timeout, no cancellation
    out of nothing. *)
Theorem wait_outcome_is_sound start_time (T : Z) (w : World) :
  match (wait_loop env start_time T w).1 with
  | timedOut => usec T < now (wait_loop env start_time T w).2 - start_time
  | cancelled =>
      exists a, stdin_at env = Some a
                /\ a <= now (wait_loop env start_time T w).2
  end.
Proof.
  apply (wait_loop_turns env start_time T (fun w r =>
    match r.1 with
    | timedOut => usec T < now r.2 - start_time
    | cancelled => exists a, stdin_at env = Some a /\ a <= now r.2
    end)); clear w.
  - intros w Hc. simpl in *. apply Z.ltb_lt in Hc. exact Hc.
  - intros w w2 _ Hs. simpl. unfold select_stdin, wake in Hs.
    destruct (stdin_at env) as [a|]; [|discriminate Hs].
    exists a. split; [reflexivity|].
    destruct (Z.leb_spec a (now (time_time env w).2));
      [|destruct (Z.ltb_spec a (now (time_time env w).2 + poll_interval))];
      try discriminate Hs; injection Hs as <-; simpl in *; lia.
  - intros w w2 _ _ IH. exact IH.
Qed.

(** X2: whatever the keyboard does, a wait with a timeout that is not
    negative is over at most [T + 1] seconds after it began, having polled
    standard input at most [2 T + 1] times (the clock lagging by at most
    one polling interval a turn). *)
Theorem wait_is_bounded (T : Z) (w : World) :
  0 <= T ->
  (forall k, Z.of_N (clock_lag env k) <= poll_interval) ->
  now (wait_loop env (now w) T w).2 - now w <= usec (T + 1)
  /\ (polls (trace (wait_loop env (now w) T w).2)
      <= polls (trace w) + Z.to_nat (2 * T + 1))%nat.
Proof.
  intros HT Hlag.
  assert (forall start_time w,
            now w - start_time <= usec T + poll_interval ->
            now (wait_loop env start_time T w).2 - start_time
            <= usec T + 2 * poll_interval) as Htime.
  { intros start_time.
    apply (wait_loop_turns env start_time T (fun w r =>
      now w - start_time <= usec T + poll_interval ->
      now r.2 - start_time <= usec T + 2 * poll_interval)); clear w.
    - intros w _ Hinv. simpl. specialize (Hlag (reads w)). lia.
    - intros w w2 Hc Hs _. apply Z.ltb_ge in Hc. simpl in Hc.
      unfold select_stdin, wake in Hs. simpl in Hs.
      destruct (stdin_at env) as [a|]; [|discriminate Hs].
      destruct (Z.leb_spec a (now w + Z.of_N (clock_lag env (reads w))));
        [|destruct (Z.ltb_spec a
             (now w + Z.of_N (clock_lag env (reads w)) + poll_interval))];
        try discriminate Hs; injection Hs as <-; simpl;
        unfold poll_interval in *; lia.
    - intros w w2 Hc Hs IH _. apply IH. apply Z.ltb_ge in Hc. simpl in Hc.
      destruct (select_stdin_frame env poll_interval (time_time env w).2)
        as (t & r & Hf).
      unfold select_stdin, wake in Hs. simpl in Hs.
      destruct (stdin_at env) as [a|];
        [destruct (Z.leb_spec a (now w + Z.of_N (clock_lag env (reads w))));
         [|destruct (Z.ltb_spec a
              (now w + Z.of_N (clock_lag env (reads w)) + poll_interval))]|];
        try discriminate Hs; injection Hs as <-; simpl; lia. }
  assert (forall start_time w (j : Z),
            0 <= j -> j * poll_interval <= now w - start_time ->
            Z.of_nat (polls (trace (wait_loop env start_time T w).2))
            <= Z.of_nat (polls (trace w)) + Z.max 0 (2 * T + 1 - j)) as Hpolls.
  { intros start_time w0.
    apply (wait_loop_turns env start_time T (fun w r =>
      forall j, 0 <= j -> j * poll_interval <= now w - start_time ->
      Z.of_nat (polls (trace r.2))
      <= Z.of_nat (polls (trace w)) + Z.max 0 (2 * T + 1 - j))); clear w0.
    - intros w0 _ j Hj Hpos. simpl. lia.
    - intros w0 w2 Hc Hs j Hj Hpos. apply Z.ltb_ge in Hc. simpl in Hc.
      destruct (select_stdin_frame env poll_interval (time_time env w0).2)
        as (t & r & Hf).
      rewrite Hf in Hs. injection Hs as -> <-. simpl.
      rewrite polls_app. change (polls [Select t true]) with 1%nat.
      assert (0 <= Z.of_N (clock_lag env (reads w0))) by lia.
      unfold usec, poll_interval in *. lia.
    - intros w0 w2 Hc Hs IH j Hj Hpos. apply Z.ltb_ge in Hc. simpl in Hc.
      assert (0 <= Z.of_N (clock_lag env (reads w0))) as Hl by lia.
      unfold select_stdin, wake in Hs. simpl in Hs.
      assert (w2 = {| files := files w0; ext := ext w0;
                      now := now w0 + Z.of_N (clock_lag env (reads w0))
                             + poll_interval;
                      reads := S (reads w0);
                      trace := trace w0
                        ++ [Select (now w0 + Z.of_N (clock_lag env (reads w0))
                                    + poll_interval) false] |}) as ->.
      { destruct (stdin_at env) as [a|];
          [destruct (a <=? now w0 + Z.of_N (clock_lag env (reads w0)));
           [|destruct (a <? now w0 + Z.of_N (clock_lag env (reads w0))
                            + poll_interval)]|];
          try discriminate Hs; injection Hs as <-; reflexivity. }
      specialize (IH (j + 1)). simpl in IH. rewrite polls_app in IH.
      change (polls [Select _ false]) with 1%nat in IH.
      unfold usec, poll_interval in *. lia. }
  split.
  - replace (usec (T + 1)) with (usec T + 2 * poll_interval)
      by (unfold usec, poll_interval; lia).
    apply Htime. unfold usec, poll_interval. lia.
  - specialize (Hpolls (now w) w 0). lia.
Qed.

(** X3: under a clock that moves only while [select] blocks, a wait that
    nobody interrupts polls exactly [2 T + 1] times and ends exactly half
    a second after the timeout: with [--timeout 0] the operator still
    gets one poll. *)
Theorem undisturbed_wait_polls_2T_plus_1 (T : Z) (w : World) :
  0 <= T ->
  stdin_at env = None ->
  (forall k, clock_lag env k = 0%N) ->
  (wait_loop env (now w) T w).1 = timedOut
  /\ now (wait_loop env (now w) T w).2 - now w = usec T + poll_interval
  /\ polls (trace (wait_loop env (now w) T w).2)
     = (polls (trace w) + Z.to_nat (2 * T + 1))%nat.
Proof.
  intros HT Hnone Hlag.
  assert (forall start_time w (j : Z),
            0 <= j <= 2 * T + 1 ->
            now w - start_time = j * poll_interval ->
            (wait_loop env start_time T w).1 = timedOut
            /\ now (wait_loop env start_time T w).2 - start_time
               = usec T + poll_interval
            /\ Z.of_nat (polls (trace (wait_loop env start_time T w).2))
               = Z.of_nat (polls (trace w)) + (2 * T + 1 - j)) as Hall.
  { intros start_time w0.
    apply (wait_loop_turns env start_time T (fun w r =>
      forall j, 0 <= j <= 2 * T + 1 ->
      now w - start_time = j * poll_interval ->
      r.1 = timedOut
      /\ now r.2 - start_time = usec T + poll_interval
      /\ Z.of_nat (polls (trace r.2))
         = Z.of_nat (polls (trace w)) + (2 * T + 1 - j))); clear w0.
    - intros w0 Hc j Hj Hpos. simpl in *. apply Z.ltb_lt in Hc.
      rewrite Hlag in *. unfold usec, poll_interval in *.
      split; [reflexivity|]. lia.
    - intros w0 w2 _ Hs. unfold select_stdin in Hs. rewrite Hnone in Hs.
      discriminate Hs.
    - intros w0 w2 Hc Hs IH j Hj Hpos. apply Z.ltb_ge in Hc. simpl in Hc.
      unfold select_stdin, wake in Hs. rewrite Hnone in Hs.
      injection Hs as <-. rewrite Hlag in *.
      specialize (IH (j + 1)). simpl in IH. rewrite polls_app in IH.
      change (polls [Select _ false]) with 1%nat in IH.
      unfold usec, poll_interval in *.
      change (Z.of_N 0) with 0 in *. rewrite ?Z.add_0_r in *.
      destruct IH as (H1 & H2 & H3); [lia|lia|].
      split; [exact H1|]. split; lia. }
  destruct (Hall (now w) w 0) as (H1 & H2 & H3); [lia|lia|].
  split; [exact H1|]. split; [exact H2|]. lia.
Qed.



End WaitingFurther.

(** ** Whole runs *)

Section RunsFurther.

Context {Ext : Type} (env : @Env Ext).

(** Case analysis on the path of a run, down to explicit histories. *)
Ltac by_path args f x0 t0 :=
  let Hwt := fresh "Hwt" in
  let Hprep := fresh "Hprep" in
  destruct (run_script_path env args f x0 t0) as
      [?Hm|?pl ?x1 ?Hpub ?Hlist ?Hrl
      |?pl ?x1 ?pd ?x2 ?Hpub ?Hlist ?Hrl ?Hsub ?Hdel ?Hrd
      |?pre ?x2 ?pg ?x3 ?Hpub Hprep ?Hgpg ?Hrg
      |?pre ?x2 ?pg ?x3 ?pa ?x4 ?Hpub Hprep ?Hgpg ?Hrg ?Hadd ?Hra
      |?tr ?x4 ?t ?k ?pf ?x5 ?Hpub Hwt ?Hfin ?Hrf
      |?tr ?x4 ?t ?k ?pf ?x5 ?Hpub Hwt ?Hfin ?Hrf
      |?err ?Hpub ?Hlist
      |?pl ?x1 ?err ?Hpub ?Hlist ?Hrl ?Hsub ?Hdel
      |?pre ?x2 ?err ?Hpub Hprep ?Hgpg
      |?pre ?x2 ?pg ?x3 ?err ?Hpub Hprep ?Hgpg ?Hrg ?Hadd
      |?tr ?x4 ?t ?k ?err ?Hpub Hwt ?Hfin];
  try (destruct Hwt as
         [?pre ?x2 ?pg ?x3 ?pa ?x4 ?how ?t ?k ?sel Hprep ?Hgpg ?Hrg ?Hadd ?Hra ?Hw ?Hsel]);
  try (destruct Hprep as
         [?pl ?x1 ?Hlist ?Hrl ?Hsub|?pl ?x1 ?pd ?x2 ?Hlist ?Hrl ?Hsub ?Hdel ?Hrd]);
  cbn [fst snd trace ext files] in *.





(** X7: a run in which gpg fails stops there: the add command is never
    issued, the exit status is 1, and the history ends with gpg's call
    followed by the traceback of [ValueError("Failed to decrypt private
    key")], a message that carries neither gpg's return code nor its
    output. *)
Theorem failed_decryption_stops_before_add args f x0 t0 b p :
  (gpg_of args, b, p)
    ∈ commands (trace (run_script env args (initial f x0 t0)).2) ->
  returncode p <> 0 ->
  (run_script env args (initial f x0 t0)).1 = 1
  /\ (forall tmp b' p',
        (add_of args tmp, b', p')
          ∉ commands (trace (run_script env args (initial f x0 t0)).2))
  /\ exists tr,
       trace (run_script env args (initial f x0 t0)).2
       = tr ++ [Spawn (gpg_of args) (ToFile (temp_name f)) Inherit b p;
                Traceback (ValueError "Failed to decrypt private key")].
Proof.
  intros Hin Hrc.
  by_path args f x0 t0;
    rewrite ?commands_app in Hin;
    try match goal with
        | Hs : Forall _ ?s |- _ => rewrite ?(commands_selects s Hs) in Hin
        end;
    simpl in Hin;
    repeat (rewrite ?elem_of_app, ?elem_of_cons in Hin);
    repeat match goal with
           | H : _ \/ _ |- _ => destruct H as [H|H]
           | H : (gpg_of _, _, _) = (list_command, _, _) |- _ => discriminate H
           | H : (gpg_of _, _, _) = (remove_of _, _, _) |- _ => discriminate H
           | H : (gpg_of _, _, _) = (add_of _ _, _, _) |- _ => discriminate H
           | H : (gpg_of _, _, _) = (gpg_of _, _, _) |- _ =>
               injection H as -> ->
           | H : (_, _, _) ∈ [] |- _ => inversion H
           end;
    try contradiction.
  all: split; [reflexivity|]; split; [|eexists; reflexivity].
  all: intros tmp b' p' Hadd'; rewrite commands_app in Hadd'; simpl in Hadd';
    repeat (rewrite ?elem_of_app, ?elem_of_cons in Hadd');
    repeat match goal with
           | H : _ \/ _ |- _ => destruct H as [H|H]
           | H : (add_of _ _, _, _) = (_, _, _) |- _ => discriminate H
           | H : (_, _, _) ∈ [] |- _ => inversion H
           end.
Qed.

(** X8: the commands of a run come in the order of the lifecycle.  Their
    argument lists form a prefix of query, decrypt, add, remove, or of
    query, remove, decrypt, add, remove: never more than five commands,
    no add before a decryption, nothing after the final removal.  A run
    that ends with status 0 has issued one of the two sequences in full. *)
Theorem commands_follow_lifecycle_order args f x0 t0 :
  let issued :=
    (fun c => c.1.1) <$> commands (trace (run_script env args (initial f x0 t0)).2) in
  let fresh_run :=
    [list_command; gpg_of args; add_of args (temp_name f); remove_of args] in
  let rerun :=
    [list_command; remove_of args; gpg_of args; add_of args (temp_name f);
     remove_of args] in
  (issued `prefix_of` fresh_run \/ issued `prefix_of` rerun)
  /\ ((run_script env args (initial f x0 t0)).1 = 0 ->
      issued = fresh_run \/ issued = rerun).
Proof.
  intros issued fresh_run rerun. subst issued fresh_run rerun.
  by_path args f x0 t0;
    rewrite ?commands_app;
    try match goal with
        | Hs : Forall _ ?s |- _ => rewrite ?(commands_selects s Hs)
        end;
    simpl; (split; [|first [discriminate|intros _; auto]]).
  all: first [left; eexists; reflexivity|right; eexists; reflexivity].
Qed.


Lemma is_substring_trans (a b c : string) :
  is_substring a b = true -> is_substring b c = true -> is_substring a c = true.
Proof.
  rewrite !is_substring_spec. intros (x & y & ->) (u & v & ->).
  exists (u +:+ x), (y +:+ v). rewrite !append_assoc. reflexivity.
Qed.

(** X10: the existence test is a substring test on the whole listing, so
    a provisioner whose name merely contains the configured one counts as
    the configured one: with such a name held by an authority that
    honours its contract and a listing that returned 0,
    [check_provisioner] answers [True], the run announces the deletion of
    an existing provisioner straight after the listing, and the removal
    of the configured name, when it can be started, is its next
    command. *)
Theorem name_inside_a_listed_name_counts_as_existing
  (namespace : Ext -> list string) args f x0 t0 other pl x1 :
  honours_contract namespace env ->
  other ∈ namespace x0 ->
  is_substring (Args.provisioner_name args) other = true ->
  exec env list_command f x0 = Exited pl x1 ->
  returncode pl = 0 ->
  (exists w',
     check_provisioner env (Args.provisioner_name args) (initial f x0 t0)
     = (Return true, w'))
  /\ (is_Some (f !! resolved_public_key env args) ->
      (exists rest,
         trace (run_script env args (initial f x0 t0)).2
         = Spawn list_command Pipe Pipe x0 pl
             :: Print ("Provisioner " +:+ Args.provisioner_name args
                       +:+ " already exists. Deleting existing provisioner...")
             :: rest)
      /\ (forall pd x2,
            exec env (remove_of args) f x1 = Exited pd x2 ->
            exists rest,
              commands (trace (run_script env args (initial f x0 t0)).2)
              = (list_command, x0, pl) :: (remove_of args, x1, pd) :: rest)).
Proof.
  intros Hc Hin Hsub Hrun Hrc.
  assert (is_substring (Args.provisioner_name args) (stdout pl) = true)
    as Hshown.
  { apply (is_substring_trans _ other); [exact Hsub|].
    exact (list_shows _ _ Hc f x0 other pl x1 Hrun Hrc Hin). }
  split.
  - unfold check_provisioner, bind, subprocess_run, ret, initial. simpl.
    fold list_command. rewrite Hrun, Hrc. simpl. rewrite Hshown. eauto.
  - intros Hsome.
    by_path args f x0 t0;
      repeat match goal with
             | H : exec env list_command _ _ = _ |- _ =>
                 rewrite Hrun in H;
                 first [discriminate H|injection H as <- <-]
             end;
      try congruence.
    all: try match goal with
             | Hm : _ !! _ = None |- _ =>
                 rewrite Hm in Hsome; destruct Hsome as [? Hsome];
                 discriminate Hsome
             end.
    all: (split; [simpl; eexists; reflexivity|]).
    all: intros pd' x2' Hdel';
      repeat match goal with
             | H : exec env (remove_of _) _ _ = _ |- _ =>
                 rewrite Hdel' in H;
                 first [discriminate H|injection H as <- <-]
             end.
    all: rewrite ?commands_app;
      try match goal with
          | Hs : Forall _ ?s |- _ => rewrite ?(commands_selects s Hs)
          end;
      simpl; eexists; reflexivity.
Qed.


Lemma join_app sep (l1 l2 : list string) :
  l1 <> [] -> l2 <> [] ->
  join sep (l1 ++ l2) = join sep l1 +:+ sep +:+ join sep l2.
Proof.
  intros H1 H2. induction l1 as [|x [|y l1] IH]; [contradiction| |].
  - destruct l2; [contradiction|reflexivity].
  - change (x +:+ sep +:+ join sep ((y :: l1) ++ l2)
            = (x +:+ sep +:+ join sep (y :: l1)) +:+ sep +:+ join sep l2).
    rewrite IH by discriminate. rewrite !append_assoc. reflexivity.
Qed.

(** X12: a key path that is not absolute is looked for under the
    directory of the script.  With the script installed under an absolute
    path (and not in the root directory itself), the path whose existence
    START checks is the script's directory, a slash, and the key path as
    [pathlib] writes it, and so is the private key path computed next to
    it; neither is the string the operator typed.  The commands of a run
    are given the typed strings: apart from the listing and the removal,
    they are [gpg --decrypt] on the private key path as typed, and the
    add with the public key path as typed. *)
Theorem relative_key_paths_resolve_under_script_dir args :
  String.prefix "/" (script_file env) = true ->
  parts (parent (path_of (script_file env))) <> [] ->
  (String.prefix "/" (Args.public_key_path args) = false ->
   parts (path_of (Args.public_key_path args)) <> [] ->
   resolved_public_key env args
   = str_path (parent (path_of (script_file env)))
       +:+ "/" +:+ str_path (path_of (Args.public_key_path args))
   /\ resolved_public_key env args <> Args.public_key_path args)
  /\ (String.prefix "/" (Args.private_key_path args) = false ->
      parts (path_of (Args.private_key_path args)) <> [] ->
      resolved_private_key env args
      = str_path (parent (path_of (script_file env)))
          +:+ "/" +:+ str_path (path_of (Args.private_key_path args))
      /\ resolved_private_key env args <> Args.private_key_path args)
  /\ (forall f x0 t0 argv b p,
        (argv, b, p)
          ∈ commands (trace (run_script env args (initial f x0 t0)).2) ->
        argv = list_command
        \/ argv = remove_of args
        \/ argv = ["gpg"; "--decrypt"; Args.private_key_path args]
        \/ argv = ["step-cli"; "ca"; "provisioner"; "add"; "--type"; "jwk";
                   "--public-key"; Args.public_key_path args;
                   "--private-key"; temp_name f;
                   Args.provisioner_name args;
                   "--admin-provisioner"; Args.admin_provisioner args;
                   "--admin-subject"; Args.admin_subject args]).
Proof.
  intros Habs Hdir.
  assert (forall key,
            String.prefix "/" key = false ->
            parts (path_of key) <> [] ->
            str_path (joinpath (parent (path_of (script_file env))) key)
            = str_path (parent (path_of (script_file env)))
                +:+ "/" +:+ str_path (path_of key)
            /\ str_path (joinpath (parent (path_of (script_file env))) key)
               <> key) as Hres.
  { intros key Hrel Hkey.
    assert (str_path (joinpath (parent (path_of (script_file env))) key)
            = str_path (parent (path_of (script_file env)))
                +:+ "/" +:+ str_path (path_of key)) as Heq.
    { unfold joinpath.
      assert (absolute (path_of key) = false) as -> by exact Hrel.
      unfold str_path at 1 2 3.
      assert (absolute (path_of key) = false) as -> by exact Hrel.
      assert (absolute (parent (path_of (script_file env))) = true) as Hd
        by exact Habs.
      cbn [absolute parts]. rewrite Hd.
      destruct (parts (path_of key)) as [|k ks] eqn:Hk; [contradiction|].
      rewrite join_app by (assumption || discriminate).
      rewrite !append_assoc. reflexivity. }
    split; [exact Heq|].
    intros Hsame. rewrite Hsame in Heq.
    assert (String.prefix "/" key = true) as Hslash.
    { rewrite Heq. unfold str_path at 1.
      assert (absolute (parent (path_of (script_file env))) = true) as ->
        by exact Habs.
      apply prefix_spec. eexists. rewrite !append_assoc. reflexivity. }
    rewrite Hrel in Hslash. discriminate Hslash. }
  split; [exact (Hres _)|]. split; [exact (Hres _)|].
  intros f x0 t0 argv b p Hin.
  exact (commands_take_raw_arguments env args f x0 t0 argv b p Hin).
Qed.


End RunsFurther.

(** ** Instances

    The theorems above that have hypotheses, each on a closed run of the
    reference authority. *)

(** A one second timeout and a key press 0.7 s into the wait. *)
Lemma wait_is_bounded_witness :
  let env := Ref.env (Some 700000) in
  let w := initial ∅ (Ref.ca []) 0 in
  let r := wait_loop env (now w) 1 w in
  0 <= 1
  /\ (forall k, Z.of_N (clock_lag env k) <= poll_interval)
  /\ now r.2 - now w <= usec (1 + 1)
  /\ (polls (trace r.2) <= polls (trace w) + Z.to_nat (2 * 1 + 1))%nat.
Proof.
  intros env w r.
  assert (0 <= 1) as H1 by lia.
  assert (forall k, Z.of_N (clock_lag env k) <= poll_interval) as Hlag
    by (intros k; simpl; unfold poll_interval; lia).
  split; [exact H1|]. split; [exact Hlag|].
  exact (wait_is_bounded env 1 w H1 Hlag).
Defined.

(** Two seconds with nobody at the keyboard: five polls. *)
Lemma undisturbed_wait_polls_2T_plus_1_witness :
  let env := Ref.env None in
  let w := initial ∅ (Ref.ca []) 0 in
  let r := wait_loop env (now w) 2 w in
  0 <= 2
  /\ stdin_at env = None
  /\ (forall k, clock_lag env k = 0%N)
  /\ r.1 = timedOut
  /\ now r.2 - now w = usec 2 + poll_interval
  /\ polls (trace r.2) = (polls (trace w) + Z.to_nat (2 * 2 + 1))%nat.
Proof.
  intros env w r.
  assert (0 <= 2) as H2 by lia.
  assert (stdin_at env = None) as Hnone by reflexivity.
  assert (forall k, clock_lag env k = 0%N) as Hlag by reflexivity.
  split; [exact H2|]. split; [exact Hnone|]. split; [exact Hlag|].
  exact (undisturbed_wait_polls_2T_plus_1 env 2 w H2 Hnone Hlag).
Defined.



(** The keys installed next to the script only: gpg is handed
    [key.priv.gpg], cannot open it, and the run stops. *)
Lemma failed_decryption_stops_before_add_witness :
  let env := Ref.env None in
  let p := mkProc 2 "" "gpg: can't open the file" in
  let r := run_script env default_args (initial Ref.keys_by_script (Ref.ca []) 0) in
  (gpg_of default_args, Ref.ca [], p) ∈ commands (trace r.2)
  /\ returncode p <> 0
  /\ r.1 = 1
  /\ (forall tmp b' p', (add_of default_args tmp, b', p') ∉ commands (trace r.2))
  /\ exists tr,
       trace r.2
       = tr ++ [Spawn (gpg_of default_args)
                  (ToFile (temp_name Ref.keys_by_script)) Inherit (Ref.ca []) p;
                Traceback (ValueError "Failed to decrypt private key")].
Proof.
  intros env p r.
  assert ((gpg_of default_args, Ref.ca [], p) ∈ commands (trace r.2)) as Hin
    by (vm_compute; repeat constructor).
  assert (returncode p <> 0) as Hrc by discriminate.
  split; [exact Hin|]. split; [exact Hrc|].
  exact (failed_decryption_stops_before_add env default_args
           Ref.keys_by_script (Ref.ca []) 0 (Ref.ca []) p Hin Hrc).
Defined.

(** The authority holds [tempjwk-prod] and not [tempjwk]. *)
Lemma name_inside_a_listed_name_counts_as_existing_witness :
  let env := Ref.env None in
  let x0 := Ref.ca ["tempjwk-prod"] in
  let f := Ref.keys_everywhere in
  let pl := mkProc 0 (Ref.listing x0) "" in
  let r := run_script env default_args (initial f x0 0) in
  honours_contract Ref.provisioners env
  /\ "tempjwk-prod" ∈ Ref.provisioners x0
  /\ (Args.provisioner_name default_args ∉ Ref.provisioners x0)
  /\ is_substring (Args.provisioner_name default_args) "tempjwk-prod" = true
  /\ exec env list_command f x0 = Exited pl x0
  /\ returncode pl = 0
  /\ (exists w',
        check_provisioner env (Args.provisioner_name default_args) (initial f x0 0)
        = (Return true, w'))
  /\ (is_Some (f !! resolved_public_key env default_args) ->
      (exists rest,
         trace r.2
         = Spawn list_command Pipe Pipe x0 pl
             :: Print ("Provisioner " +:+ Args.provisioner_name default_args
                       +:+ " already exists. Deleting existing provisioner...")
             :: rest)
      /\ (forall pd x2,
            exec env (remove_of default_args) f x0 = Exited pd x2 ->
            exists rest,
              commands (trace r.2)
              = (list_command, x0, pl) :: (remove_of default_args, x0, pd) :: rest)).
Proof.
  intros env x0 f pl r.
  pose proof (ref_honours_contract None) as Hc.
  assert ("tempjwk-prod" ∈ Ref.provisioners x0) as Hin
    by (simpl; repeat constructor).
  assert (Args.provisioner_name default_args ∉ Ref.provisioners x0) as Hout
    by (simpl; intros Hx; apply list_elem_of_singleton in Hx; discriminate Hx).
  assert (is_substring (Args.provisioner_name default_args) "tempjwk-prod"
          = true) as Hsub by reflexivity.
  assert (exec env list_command f x0 = Exited pl x0) as Hrun by reflexivity.
  assert (returncode pl = 0) as Hrc by reflexivity.
  split; [exact Hc|]. split; [exact Hin|]. split; [exact Hout|].
  split; [exact Hsub|]. split; [exact Hrun|]. split; [exact Hrc|].
  exact (name_inside_a_listed_name_counts_as_existing env Ref.provisioners
           default_args f x0 0 "tempjwk-prod" pl x0 Hc Hin Hsub Hrun Hrc).
Defined.


(** The tool installed at [/opt/tempjwk] and the default key paths. *)
Lemma relative_key_paths_resolve_under_script_dir_witness :
  let env := Ref.env None in
  String.prefix "/" (script_file env) = true
  /\ parts (parent (path_of (script_file env))) <> []
  /\ String.prefix "/" (Args.public_key_path default_args) = false
  /\ parts (path_of (Args.public_key_path default_args)) <> []
  /\ resolved_public_key env default_args
     = str_path (parent (path_of (script_file env)))
         +:+ "/" +:+ str_path (path_of (Args.public_key_path default_args))
  /\ resolved_public_key env default_args <> Args.public_key_path default_args.
Proof.
  intros env.
  assert (String.prefix "/" (script_file env) = true) as Habs by reflexivity.
  assert (parts (parent (path_of (script_file env))) <> []) as Hdir
    by (vm_compute; discriminate).
  assert (String.prefix "/" (Args.public_key_path default_args) = false)
    as Hrel by reflexivity.
  assert (parts (path_of (Args.public_key_path default_args)) <> []) as Hkey
    by (vm_compute; discriminate).
  split; [exact Habs|]. split; [exact Hdir|]. split; [exact Hrel|].
  split; [exact Hkey|].
  exact (proj1 (relative_key_paths_resolve_under_script_dir env default_args
                  Habs Hdir) Hrel Hkey).
Defined.
